(** * SceneManager: the texture and material registry of the scene

    A shallow embedding of [Source/SceneManager.cpp].  The methods of the
    class become computations in a small state-and-fault monad over a
    [World]: the members of the [SceneManager] object together with the
    trace of calls the object makes to its collaborators (stb_image,
    OpenGL, the shader manager, the console).

    Floating point numbers and the glm matrix functions are not computed
    on by this file of the program, only passed around, so they are kept
    abstract in the class [Glm]. *)

From Stdlib Require Import ZArith Lia.
From stdpp Require Import base list strings.

(** ** glm and the floating point numbers *)

Record vec2 (F : Type) := Vec2 { v2x : F; v2y : F }.
Record vec3 (F : Type) := Vec3 { v3x : F; v3y : F; v3z : F }.
Record vec4 (F : Type) := Vec4 { r : F; g : F; b : F; a : F }.
Arguments Vec2 {F} _ _.
Arguments Vec3 {F} _ _ _.
Arguments Vec4 {F} _ _ _ _.

(** [float_lit] is the value of a floating literal of the source, given
    by its text ([0.1f] and [0.1] are different literals: the second is
    a double narrowed on assignment).  [mat4_mul] is the [operator*] of
    [glm::mat4]. *)
Class Glm := {
  float : Type;
  mat4 : Type;
  float_lit : string -> float;
  glm_radians : float -> float;
  glm_scale : vec3 float -> mat4;
  glm_rotate : float -> vec3 float -> mat4;
  glm_translate : vec3 float -> mat4;
  mat4_mul : mat4 -> mat4 -> mat4;
}.

Declare Scope mat4_scope.
Delimit Scope mat4_scope with mat4.
Infix "*" := mat4_mul : mat4_scope.

(** ** The records of SceneManager.h *)

(** Modelled from the spec: the entry of the texture table, a string tag
    and an integer handle.  SceneManager.h, which declares it, is not
    among the sources; the two fields are the ones the methods assign
    and read, and the handle is kept as the integer that [FindTextureID]
    returns. *)
Module TEXTURE_INFO.
Record t := Build { tag : string; ID : Z }.
End TEXTURE_INFO.

(** Modelled from the spec: the material record, three colours of three
    floats each, the ambient strength, the shininess and the tag, with
    the field names the methods use. *)
Module OBJECT_MATERIAL.
Section Fields.
Context `{Glm}.
Record t := Build {
  ambientColor : vec3 float;
  ambientStrength : float;
  diffuseColor : vec3 float;
  specularColor : vec3 float;
  shininess : float;
  tag : string;
}.
End Fields.
End OBJECT_MATERIAL.

(** The address of a collaborator object. *)
Definition addr := positive.

(** The members the methods below use ([m_basicMeshes], the mesh
    helper, is left out).  [m_loadedTextures] is an [int] that the
    constructor sets to 0 and that is only ever incremented, by one, after
    an assignment into the table at that index: the embedding faults at
    that assignment before the count could leave the table, so the count
    is a [nat] here and never wraps. *)
Record SceneManager `{Glm} := {
  m_pShaderManager : option addr;          (* [None] is NULL *)
  m_textureIDs : list TEXTURE_INFO.t;      (* the fixed array *)
  m_loadedTextures : nat;
  m_objectMaterials : list OBJECT_MATERIAL.t;
}.

(** Modelled from the spec: the length of the array [m_textureIDs],
    declared in SceneManager.h.  The constructor initialises exactly this
    many entries. *)
Definition TEXTURE_CAPACITY : nat := 16.

(** ** The collaborators *)

Record Image := {
  width : Z;
  height : Z;
  colorChannels : Z;
  pixels : list Z;
}.

Inductive GLenum :=
| GL_TEXTURE_2D | GL_TEXTURE_WRAP_S | GL_TEXTURE_WRAP_T | GL_REPEAT
| GL_TEXTURE_MIN_FILTER | GL_TEXTURE_MAG_FILTER | GL_LINEAR
| GL_RGB8 | GL_RGB | GL_RGBA8 | GL_RGBA | GL_UNSIGNED_BYTE.

Inductive cout_item :=
| Str (s : string)
| Int (n : Z).

(** One call made by the scene manager, with its arguments (and, for
    the two calls that give something back, what they gave). *)
Inductive Event `{Glm} :=
| stbi_set_flip_vertically_on_load (flag : bool)
| stbi_load (filename : string) (result : option Image)
| stbi_image_free (image : Image)
| glGenTextures (n : Z) (name : Z)
| glBindTexture (target : GLenum) (texture : Z)
| glTexParameteri (target pname param : GLenum)
| glTexImage2D (target : GLenum) (level : Z) (internalformat : GLenum)
    (w h border : Z) (format type : GLenum) (image : Image)
| glGenerateMipmap (target : GLenum)
| cout (line : list cout_item)
| setMat4Value (p : addr) (name : string) (value : mat4)
| setIntValue (p : addr) (name : string) (value : Z)
| setVec4Value (p : addr) (name : string) (value : vec4 float)
| setSampler2DValue (p : addr) (name : string) (value : Z)
| setVec2Value (p : addr) (name : string) (value : vec2 float)
| setVec3Value (p : addr) (name : string) (value : vec3 float)
| setFloatValue (p : addr) (name : string) (value : float).

(** What the outside gives back: the decoder on a file name and the
    texture name OpenGL generates, both as functions of what happened so
    far. *)
Class Platform `{Glm} := {
  stbi_load_result : list Event -> string -> option Image;
  glGenTextures_result : list Event -> Z;
}.

Record World `{Glm} := {
  this : SceneManager;
  trace : list Event;      (* oldest call first *)
}.

(** ** The monad of the methods *)

Inductive fault :=
| OutOfBounds (index : nat)     (* an array element outside the array *)
| NullPointer                   (* a call through a NULL pointer *)
| OutOfFuel.

Inductive outcome `{Glm} (A : Type) :=
| Ret (x : A) (w : World)
| Fault (f : fault).
Arguments Ret {_ A} _ _.
Arguments Fault {_ A} _.

Definition M `{Glm} (A : Type) : Type := World -> outcome A.

Section Monad.
Context `{Glm}.

Definition ret {A} (x : A) : M A := fun w => Ret x w.

Definition bind {A B} (m : M A) (k : A -> M B) : M B :=
  fun w => match m w with
           | Ret x w' => k x w'
           | Fault f => Fault f
           end.

Definition fail {A} (f : fault) : M A := fun _ => Fault f.

Definition get_this : M SceneManager := fun w => Ret (this w) w.

Definition put_this (s : SceneManager) : M unit :=
  fun w => Ret tt {| this := s; trace := trace w |}.

Definition get_trace : M (list Event) := fun w => Ret (trace w) w.

Definition emit (e : Event) : M unit :=
  fun w => Ret tt {| this := this w; trace := trace w ++ [e] |}.
End Monad.

Declare Scope M_scope.
Delimit Scope M_scope with M.
Notation "x <- m ;; k" := (bind m (fun x => k))
  (at level 100, m at next level, right associativity) : M_scope.
Notation "m ;;; k" := (bind m (fun _ => k))
  (at level 100, right associativity) : M_scope.
Open Scope M_scope.

(** ** The scene manager *)

Section SceneManager.
Context `{Glm} `{!Platform}.

(** Names of the uniforms (the globals of the anonymous namespace). *)
Definition g_ModelName := "model".
Definition g_ColorValueName := "objectColor".
Definition g_TextureValueName := "objectTexture".
Definition g_UseTextureName := "bUseTexture".
Definition g_UseLightingName := "bUseLighting".

(** *** Access to the members *)

Definition set_textureIDs (s : SceneManager) (a : list TEXTURE_INFO.t) : SceneManager :=
  {| m_pShaderManager := m_pShaderManager s;
     m_textureIDs := a;
     m_loadedTextures := m_loadedTextures s;
     m_objectMaterials := m_objectMaterials s |}.

Definition set_loadedTextures (s : SceneManager) (n : nat) : SceneManager :=
  {| m_pShaderManager := m_pShaderManager s;
     m_textureIDs := m_textureIDs s;
     m_loadedTextures := n;
     m_objectMaterials := m_objectMaterials s |}.

Definition set_objectMaterials (s : SceneManager) (l : list OBJECT_MATERIAL.t) : SceneManager :=
  {| m_pShaderManager := m_pShaderManager s;
     m_textureIDs := m_textureIDs s;
     m_loadedTextures := m_loadedTextures s;
     m_objectMaterials := l |}.

(** [m_textureIDs[index]] read, and its two fields assigned.  An
    index outside the array is a fault: the embedding checks what the
    source does not. *)
Definition texture_at (index : nat) : M TEXTURE_INFO.t :=
  s <- get_this ;;
  match m_textureIDs s !! index with
  | Some e => ret e
  | None => fail (OutOfBounds index)
  end.

Definition store_ID (index : nat) (v : Z) : M unit :=
  s <- get_this ;;
  match m_textureIDs s !! index with
  | Some e =>
    put_this (set_textureIDs s
      (<[index := TEXTURE_INFO.Build (TEXTURE_INFO.tag e) v]> (m_textureIDs s)))
  | None => fail (OutOfBounds index)
  end.

Definition store_tag (index : nat) (v : string) : M unit :=
  s <- get_this ;;
  match m_textureIDs s !! index with
  | Some e =>
    put_this (set_textureIDs s
      (<[index := TEXTURE_INFO.Build v (TEXTURE_INFO.ID e)]> (m_textureIDs s)))
  | None => fail (OutOfBounds index)
  end.

(** [m_objectMaterials[index]] and [m_objectMaterials.push_back]. *)
Definition material_at (index : nat) : M OBJECT_MATERIAL.t :=
  s <- get_this ;;
  match m_objectMaterials s !! index with
  | Some m => ret m
  | None => fail (OutOfBounds index)
  end.

Definition push_back (m : OBJECT_MATERIAL.t) : M unit :=
  s <- get_this ;;
  put_this (set_objectMaterials s (m_objectMaterials s ++ [m])).

(** The two calls whose result comes from outside. *)
Definition call_stbi_load (filename : string) : M (option Image) :=
  tr <- get_trace ;;
  let image := stbi_load_result tr filename in
  emit (stbi_load filename image) ;;;
  ret image.

Definition call_glGenTextures : M Z :=
  tr <- get_trace ;;
  let textureID := glGenTextures_result tr in
  emit (glGenTextures 1 textureID) ;;;
  ret textureID.

(** *** SceneManager() *)

Fixpoint ctor_for (n i : nat) (a : list TEXTURE_INFO.t) : list TEXTURE_INFO.t :=
  match n with
  | O => a
  | S n => ctor_for n (S i) (<[i := TEXTURE_INFO.Build "/0" (-1)]> a)
  end.

(** The object the constructor builds.  The array elements are
    default-constructed before the loop overwrites each of them (their
    [ID] is indeterminate until then; the loop leaves none of them). *)
Definition SceneManager_new (pShaderManager : option addr) : SceneManager :=
  {| m_pShaderManager := pShaderManager;
     m_textureIDs :=
       ctor_for 16 0 (replicate TEXTURE_CAPACITY (TEXTURE_INFO.Build "" 0));
     m_loadedTextures := 0;
     m_objectMaterials := [] |}.

(** *** CreateGLTexture *)

Definition CreateGLTexture (filename : string) (tag : string) : M bool :=
  emit (stbi_set_flip_vertically_on_load true) ;;;
  image <- call_stbi_load filename ;;
  match image with
  | Some img =>
    let width := width img in
    let height := height img in
    let colorChannels := colorChannels img in
    emit (cout [Str "Successfully loaded image:"; Str filename;
                Str ", width:"; Int width; Str ", height:"; Int height;
                Str ", channels:"; Int colorChannels]) ;;;
    textureID <- call_glGenTextures ;;
    emit (glBindTexture GL_TEXTURE_2D textureID) ;;;
    emit (glTexParameteri GL_TEXTURE_2D GL_TEXTURE_WRAP_S GL_REPEAT) ;;;
    emit (glTexParameteri GL_TEXTURE_2D GL_TEXTURE_WRAP_T GL_REPEAT) ;;;
    emit (glTexParameteri GL_TEXTURE_2D GL_TEXTURE_MIN_FILTER GL_LINEAR) ;;;
    emit (glTexParameteri GL_TEXTURE_2D GL_TEXTURE_MAG_FILTER GL_LINEAR) ;;;
    uploaded <-
      (if (colorChannels =? 3)%Z then
         emit (glTexImage2D GL_TEXTURE_2D 0 GL_RGB8 width height 0
                 GL_RGB GL_UNSIGNED_BYTE img) ;;;
         ret true
       else if (colorChannels =? 4)%Z then
         emit (glTexImage2D GL_TEXTURE_2D 0 GL_RGBA8 width height 0
                 GL_RGBA GL_UNSIGNED_BYTE img) ;;;
         ret true
       else
         emit (cout [Str "Not implemented to handle image with ";
                     Int colorChannels; Str " channels"]) ;;;
         ret false) ;;
    if uploaded : bool then
      emit (glGenerateMipmap GL_TEXTURE_2D) ;;;
      emit (stbi_image_free img) ;;;
      emit (glBindTexture GL_TEXTURE_2D 0) ;;;
      (* register the loaded texture under the tag *)
      s <- get_this ;;
      store_ID (m_loadedTextures s) textureID ;;;
      s <- get_this ;;
      store_tag (m_loadedTextures s) tag ;;;
      s <- get_this ;;
      put_this (set_loadedTextures s (m_loadedTextures s + 1)) ;;;
      ret true
    else
      ret false            (* the early return of the last branch *)
  | None =>
    emit (cout [Str "Could not load image:"; Str filename]) ;;;
    ret false
  end.

(** *** FindTextureID, FindTextureSlot

    The while loops, with the loop test first: fuel is only consumed by
    an iteration of the body. *)

Fixpoint FindTextureID_while (fuel : nat) (tag : string)
    (textureID : Z) (index : nat) (bFound : bool) : M Z :=
  s <- get_this ;;
  if bool_decide (index < m_loadedTextures s) && bool_decide (bFound = false) then
    match fuel with
    | O => fail OutOfFuel
    | S fuel =>
      e <- texture_at index ;;
      if String.eqb (TEXTURE_INFO.tag e) tag
      then FindTextureID_while fuel tag (TEXTURE_INFO.ID e) index true
      else FindTextureID_while fuel tag textureID (index + 1) bFound
    end
  else ret textureID.

Definition FindTextureID (tag : string) : M Z :=
  s <- get_this ;;
  FindTextureID_while (S (m_loadedTextures s)) tag (-1) 0 false.

Fixpoint FindTextureSlot_while (fuel : nat) (tag : string)
    (textureSlot : Z) (index : nat) (bFound : bool) : M Z :=
  s <- get_this ;;
  if bool_decide (index < m_loadedTextures s) && bool_decide (bFound = false) then
    match fuel with
    | O => fail OutOfFuel
    | S fuel =>
      e <- texture_at index ;;
      if String.eqb (TEXTURE_INFO.tag e) tag
      then FindTextureSlot_while fuel tag (Z.of_nat index) index true
      else FindTextureSlot_while fuel tag textureSlot (index + 1) bFound
    end
  else ret textureSlot.

Definition FindTextureSlot (tag : string) : M Z :=
  s <- get_this ;;
  FindTextureSlot_while (S (m_loadedTextures s)) tag (-1) 0 false.

(** *** FindMaterial

    The reference parameter [material] is threaded through: the
    method gives back its value on return next to the [bool]. *)

Fixpoint FindMaterial_while (fuel : nat) (tag : string)
    (material : OBJECT_MATERIAL.t) (index : nat) (bFound : bool)
    : M (bool * OBJECT_MATERIAL.t) :=
  s <- get_this ;;
  if bool_decide (index < length (m_objectMaterials s)) && bool_decide (bFound = false) then
    match fuel with
    | O => fail OutOfFuel
    | S fuel =>
      m <- material_at index ;;
      if String.eqb (OBJECT_MATERIAL.tag m) tag then
        FindMaterial_while fuel tag
          (OBJECT_MATERIAL.Build
             (OBJECT_MATERIAL.ambientColor m)
             (OBJECT_MATERIAL.ambientStrength m)
             (OBJECT_MATERIAL.diffuseColor m)
             (OBJECT_MATERIAL.specularColor m)
             (OBJECT_MATERIAL.shininess m)
             (OBJECT_MATERIAL.tag material))
          index true
      else
        FindMaterial_while fuel tag material (index + 1) bFound
    end
  else ret (bFound, material).

Definition FindMaterial (tag : string) (material : OBJECT_MATERIAL.t)
    : M (bool * OBJECT_MATERIAL.t) :=
  s <- get_this ;;
  if bool_decide (length (m_objectMaterials s) = 0) then
    ret (false, material)
  else
    r <- FindMaterial_while (S (length (m_objectMaterials s))) tag material 0 false ;;
    ret (true, snd r).

(** *** The setters of the shader values *)

Definition SetTransformations (scaleXYZ : vec3 float)
    (XrotationDegrees YrotationDegrees ZrotationDegrees : float)
    (positionXYZ : vec3 float) : M unit :=
  let scale := glm_scale scaleXYZ in
  let rotationX :=
    glm_rotate (glm_radians XrotationDegrees)
      (Vec3 (float_lit "1.0f") (float_lit "0.0f") (float_lit "0.0f")) in
  let rotationY :=
    glm_rotate (glm_radians YrotationDegrees)
      (Vec3 (float_lit "0.0f") (float_lit "1.0f") (float_lit "0.0f")) in
  let rotationZ :=
    glm_rotate (glm_radians ZrotationDegrees)
      (Vec3 (float_lit "0.0f") (float_lit "0.0f") (float_lit "1.0f")) in
  let translation := glm_translate positionXYZ in
  let modelView := (translation * rotationX * rotationY * rotationZ * scale)%mat4 in
  s <- get_this ;;
  match m_pShaderManager s with
  | Some p => emit (setMat4Value p g_ModelName modelView)
  | None => ret tt
  end.

Definition SetShaderColor
    (redColorValue greenColorValue blueColorValue alphaValue : float) : M unit :=
  let currentColor :=
    Vec4 redColorValue greenColorValue blueColorValue alphaValue in
  s <- get_this ;;
  match m_pShaderManager s with
  | Some p =>
    emit (setIntValue p g_UseTextureName 0) ;;;
    emit (setVec4Value p g_ColorValueName currentColor)
  | None => ret tt
  end.

Definition SetShaderTexture (textureTag : string) : M unit :=
  s <- get_this ;;
  match m_pShaderManager s with
  | Some p =>
    emit (setIntValue p g_UseTextureName 1) ;;;
    textureID <- FindTextureSlot textureTag ;;
    emit (setSampler2DValue p g_TextureValueName textureID)
  | None => ret tt
  end.

Definition SetTextureUVScale (u v : float) : M unit :=
  s <- get_this ;;
  match m_pShaderManager s with
  | Some p => emit (setVec2Value p "UVscale" (Vec2 u v))
  | None => ret tt
  end.

(** [SetShaderMaterial] declares its local [material] without a value:
    [indeterminate] stands for what the local holds then.  The pointer
    is used without a test. *)
Definition SetShaderMaterial (indeterminate : OBJECT_MATERIAL.t)
    (materialTag : string) : M unit :=
  s <- get_this ;;
  if bool_decide (0 < length (m_objectMaterials s)) then
    r <- FindMaterial materialTag indeterminate ;;
    let bReturn := fst r in
    let material := snd r in
    if bool_decide (bReturn = true) then
      match m_pShaderManager s with
      | Some p =>
        emit (setVec3Value p "material.ambientColor" (OBJECT_MATERIAL.ambientColor material)) ;;;
        emit (setFloatValue p "material.ambientStrength" (OBJECT_MATERIAL.ambientStrength material)) ;;;
        emit (setVec3Value p "material.diffuseColor" (OBJECT_MATERIAL.diffuseColor material)) ;;;
        emit (setVec3Value p "material.specularColor" (OBJECT_MATERIAL.specularColor material)) ;;;
        emit (setFloatValue p "material.shininess" (OBJECT_MATERIAL.shininess material))
      | None => fail NullPointer
      end
    else ret tt
  else ret tt.

(** *** DefineObjectMaterials *)

Definition vec3_lit (x y z : string) : vec3 float :=
  Vec3 (float_lit x) (float_lit y) (float_lit z).

Definition silver : OBJECT_MATERIAL.t :=
  OBJECT_MATERIAL.Build
    (vec3_lit "0.09225f" "0.09225f" "0.09225f") (float_lit "0.1f")
    (vec3_lit "0.40754f" "0.40754f" "0.40754f")
    (vec3_lit "0.408273f" "0.408273f" "0.408273f")
    (float_lit "1.0") "silver".

Definition goldMaterial : OBJECT_MATERIAL.t :=
  OBJECT_MATERIAL.Build
    (vec3_lit "0.2f" "0.2f" "0.2f") (float_lit "0.3f")
    (vec3_lit "0.2f" "0.2f" "0.2f")
    (vec3_lit "0.5f" "0.5f" "0.5f")
    (float_lit "22.0") "metal".

Definition blackMetalMaterial : OBJECT_MATERIAL.t :=
  OBJECT_MATERIAL.Build
    (vec3_lit "0.02f" "0.02f" "0.02f") (float_lit "0.01f")
    (vec3_lit "0.01f" "0.01f" "0.01f")
    (vec3_lit "0.01f" "0.01f" "0.01f")
    (float_lit "0.01") "blackmetal".

Definition blueWoodMaterial : OBJECT_MATERIAL.t :=
  OBJECT_MATERIAL.Build
    (vec3_lit "0.01f" "0.01f" "0.01f") (float_lit "0.1f")
    (vec3_lit "0.1f" "0.1f" "0.2f")
    (vec3_lit "0.1f" "0.1f" "0.3f")
    (float_lit "0.1") "bluewood".

Definition cheeseMaterial : OBJECT_MATERIAL.t :=
  OBJECT_MATERIAL.Build
    (vec3_lit "0.01f" "0.01f" "0.01f") (float_lit "0.1f")
    (vec3_lit "0.6f" "0.6f" "0.6f")
    (vec3_lit "0.1f" "0.1f" "0.1f")
    (float_lit "0.3") "cheese".

Definition turqoiseMaterial : OBJECT_MATERIAL.t :=
  OBJECT_MATERIAL.Build
    (vec3_lit "0.1f" "0.18725f" "0.1745f") (float_lit "0.2f")
    (vec3_lit "0.396f" "0.74151f" "0.69102f")
    (vec3_lit "0.297254f" "0.30829f" "0.306678f")
    (float_lit "0.1") "turqoise".

Definition DefineObjectMaterials : M unit :=
  push_back silver ;;;
  push_back goldMaterial ;;;
  push_back blackMetalMaterial ;;;
  push_back blueWoodMaterial ;;;
  push_back cheeseMaterial ;;;
  push_back turqoiseMaterial.

End SceneManager.

(** ** A symbolic glm and a small platform, to run the methods on *)

Inductive sym_float :=
| FLit (text : string)
| FRadians (degrees : sym_float).

Inductive sym_mat4 :=
| MScale (v : vec3 sym_float)
| MRotate (angle : sym_float) (axis : vec3 sym_float)
| MTranslate (v : vec3 sym_float)
| MMul (m1 m2 : sym_mat4).

Definition sym_glm : Glm :=
  {| float := sym_float;
     mat4 := sym_mat4;
     float_lit := FLit;
     glm_radians := FRadians;
     glm_scale := MScale;
     glm_rotate := MRotate;
     glm_translate := MTranslate;
     mat4_mul := MMul |}.

(** The names OpenGL has generated so far, oldest first. *)
Definition generated `{Glm} (tr : list Event) : list Z :=
  omap (fun e => match e with glGenTextures _ name => Some name | _ => None end) tr.

(** The images of the scene decode to three channels; one more file is
    a picture of a single channel, and nothing else can be read.
    OpenGL hands out the names 1, 2, 3, ... *)
Definition demo_files (filename : string) : option Image :=
  if bool_decide (filename ∈ ["BackgroundTile.jpg"; "PotGold.jpg";
        "gold-seamless-texture.jpg"; "BlueRusticWood2.png"; "melon.bmp";
        "leaf.bmp"; "knife_handle.jpg"])
  then Some {| width := 2; height := 2; colorChannels := 3; pixels := [] |}
  else if bool_decide (filename = "gray.png")
  then Some {| width := 2; height := 2; colorChannels := 1; pixels := [] |}
  else None.

Definition demo_platform `{Glm} : Platform :=
  {| stbi_load_result := fun _ filename => demo_files filename;
     glGenTextures_result := fun tr => (Z.of_nat (length (generated tr)) + 1)%Z |}.

(** ** The notions the properties are stated with *)

Section Registry.
Context `{Glm} `{!Platform}.

(** The part of the table in use: the first [m_loadedTextures]
    entries. *)
Definition loaded (w : World) : list TEXTURE_INFO.t :=
  take (m_loadedTextures (this w)) (m_textureIDs (this w)).

(** Linear scan, first match wins: the handle, respectively the
    position, of the first entry of [l] with the tag, [miss] when
    there is none.  [index] is the position of the head of [l]. *)
Fixpoint scan_ID (tag : string) (miss : Z) (l : list TEXTURE_INFO.t) : Z :=
  match l with
  | [] => miss
  | e :: l =>
    if String.eqb (TEXTURE_INFO.tag e) tag then TEXTURE_INFO.ID e
    else scan_ID tag miss l
  end.

Fixpoint scan_slot (tag : string) (miss : Z) (index : nat)
    (l : list TEXTURE_INFO.t) : Z :=
  match l with
  | [] => miss
  | e :: l =>
    if String.eqb (TEXTURE_INFO.tag e) tag then Z.of_nat index
    else scan_slot tag miss (S index) l
  end.

(** [inserted w l]: the world [w] comes from a newly constructed scene
    manager, and [l] lists, oldest first, the tags of the calls of
    [CreateGLTexture] that returned true, each with the name OpenGL
    generated during that call. *)
Inductive inserted : World -> list TEXTURE_INFO.t -> Prop :=
| inserted_new pShaderManager tr :
    inserted {| this := SceneManager_new pShaderManager; trace := tr |} []
| inserted_loaded w l filename tag w' textureID :
    inserted w l ->
    CreateGLTexture filename tag w = Ret true w' ->
    last (generated (trace w')) = Some textureID ->
    inserted w' (l ++ [TEXTURE_INFO.Build tag textureID])
| inserted_failed w l filename tag w' :
    inserted w l ->
    CreateGLTexture filename tag w = Ret false w' ->
    inserted w' l
| inserted_other w l w' :
    (* any step that leaves the table and the count alone *)
    inserted w l ->
    m_textureIDs (this w') = m_textureIDs (this w) ->
    m_loadedTextures (this w') = m_loadedTextures (this w) ->
    inserted w' l.

(** A sequence of calls of [CreateGLTexture], as [LoadSceneTextures]
    makes them, with the record of what was inserted kept next to
    the world.  A fault ends the replay. *)
Fixpoint replay (calls : list (string * string)) (w : World)
    (l : list TEXTURE_INFO.t) : option (World * list TEXTURE_INFO.t) :=
  match calls with
  | [] => Some (w, l)
  | (filename, tag) :: calls =>
    match CreateGLTexture filename tag w with
    | Ret true w' =>
      match last (generated (trace w')) with
      | Some textureID => replay calls w' (l ++ [TEXTURE_INFO.Build tag textureID])
      | None => None
      end
    | Ret false w' => replay calls w' l
    | Fault _ => None
    end
  end.

(** What [stbi_load] gives a call of [CreateGLTexture] that starts in
    [w], and the channel counts the method uploads. *)
Definition decoded (w : World) (filename : string) : option Image :=
  stbi_load_result (trace w ++ [stbi_set_flip_vertically_on_load true]) filename.

Definition supported (image : Image) : Prop :=
  colorChannels image = 3%Z ∨ colorChannels image = 4%Z.

(** The scene manager after a texture has been registered. *)
Definition registered (s : SceneManager) (tag : string) (textureID : Z)
    : SceneManager :=
  set_loadedTextures
    (set_textureIDs s
       (<[m_loadedTextures s := TEXTURE_INFO.Build tag textureID]> (m_textureIDs s)))
    (m_loadedTextures s + 1).

(** What the first five assignments of the match branch of
    [FindMaterial] make of [material]. *)
Definition copy_material (m material : OBJECT_MATERIAL.t) : OBJECT_MATERIAL.t :=
  OBJECT_MATERIAL.Build
    (OBJECT_MATERIAL.ambientColor m)
    (OBJECT_MATERIAL.ambientStrength m)
    (OBJECT_MATERIAL.diffuseColor m)
    (OBJECT_MATERIAL.specularColor m)
    (OBJECT_MATERIAL.shininess m)
    (OBJECT_MATERIAL.tag material).

(** The materials of the scene, in the order [DefineObjectMaterials]
    pushes them. *)
Definition scene_materials : list OBJECT_MATERIAL.t :=
  [silver; goldMaterial; blackMetalMaterial; blueWoodMaterial;
   cheeseMaterial; turqoiseMaterial].

(** The first material with the tag. *)
Definition first_material (tag : string) (l : list OBJECT_MATERIAL.t)
    : option OBJECT_MATERIAL.t :=
  find (fun m => String.eqb (OBJECT_MATERIAL.tag m) tag) l.

End Registry.

(** ** Worlds to run the methods in *)

Section Demo.
#[local] Existing Instance sym_glm.
#[local] Existing Instance demo_platform.

Definition demo_new : World :=
  {| this := SceneManager_new (Some 1%positive); trace := [] |}.

(** The seven textures of [LoadSceneTextures]. *)
Definition scene_textures : list (string * string) :=
  [("BackgroundTile.jpg", "background"); ("PotGold.jpg", "pot");
   ("gold-seamless-texture.jpg", "gold"); ("BlueRusticWood2.png", "rustic");
   ("melon.bmp", "melon"); ("leaf.bmp", "leaf"); ("knife_handle.jpg", "knife")].

Definition replayed (calls : list (string * string)) : World * list TEXTURE_INFO.t :=
  default (demo_new, []) (replay calls demo_new []).

Definition demo_scene : World := fst (replayed scene_textures).

(** One tag loaded twice, with two failed loads in between. *)
Definition demo_twice : World :=
  fst (replayed [("PotGold.jpg", "pot"); ("gray.png", "gray");
                 ("missing.jpg", "pot"); ("melon.bmp", "pot")]).

(** One texture. *)
Definition demo_pot : World := fst (replayed [("PotGold.jpg", "pot")]).

(** Sixteen textures: a full table. *)
Definition sixteen_textures : list (string * string) :=
  scene_textures ++ scene_textures ++ [("melon.bmp", "m15"); ("leaf.bmp", "l16")].

Definition demo_full : World := fst (replayed sixteen_textures).

(** The scene manager without a shader manager. *)
Definition demo_null : World :=
  {| this := SceneManager_new None; trace := [] |}.

(** The scene manager with the materials of the scene. *)
Definition demo_materials : World :=
  {| this := set_objectMaterials (SceneManager_new (Some 1%positive)) scene_materials;
     trace := [] |}.

Definition entry (tag : string) (textureID : Z) : TEXTURE_INFO.t :=
  TEXTURE_INFO.Build tag textureID.

Definition picture (channels : Z) : Image :=
  {| width := 2; height := 2; colorChannels := channels; pixels := [] |}.

End Demo.

(** ** The rest of the scene manager *)

Section Teardown.
Context `{Glm} `{!Platform}.

Definition set_pShaderManager (s : SceneManager) (p : option addr) : SceneManager :=
  {| m_pShaderManager := p;
     m_textureIDs := m_textureIDs s;
     m_loadedTextures := m_loadedTextures s;
     m_objectMaterials := m_objectMaterials s |}.

(** *** DestroyGLTextures

    The [for] loop, with the loop test first.  [glGenTextures] is handed
    the address of the [ID] of entry [i] and writes the name it
    generates there. *)
Fixpoint DestroyGLTextures_for (fuel : nat) (i : nat) : M unit :=
  s <- get_this ;;
  if bool_decide (i < m_loadedTextures s) then
    match fuel with
    | O => fail OutOfFuel
    | S fuel =>
      name <- call_glGenTextures ;;
      store_ID i name ;;;
      DestroyGLTextures_for fuel (i + 1)
    end
  else ret tt.

Definition DestroyGLTextures : M unit :=
  s <- get_this ;;
  DestroyGLTextures_for (m_loadedTextures s) 0.

End Teardown.

(** ** The calls outside the registry

    The methods that prepare the scene make calls that the registry
    methods do not make.  They are kept in a list of their own, each with
    the number of calls of [trace] made before it, which places it among
    them. *)

(** The value of the OpenGL constant (0x84C0). *)
Definition GL_TEXTURE0 : Z := 33984.

Inductive Outer `{Glm} :=
| glActiveTexture (texture : Z)
| setBoolValue (p : addr) (name : string) (value : bool)
| setVec3Value_xyz (p : addr) (name : string) (x y z : float)
| LoadPlaneMesh
| LoadSphereMesh
| LoadBoxMesh
| LoadTorusMesh
| LoadTaperedCylinderMesh
| DrawPlaneMesh
| DrawSphereMesh
| DrawBoxMesh
| DrawTorusMesh
| DrawHalfTorusMesh
| DrawTaperedCylinderMesh
| delete_ShapeMeshes.

Record Scene `{Glm} := {
  world : World;
  outer : list (nat * Outer);     (* oldest call first *)
}.

Inductive result `{Glm} (A : Type) :=
| Done (x : A) (sc : Scene)
| Stopped (f : fault).
Arguments Done {_ A} _ _.
Arguments Stopped {_ A} _.

Definition Script `{Glm} (A : Type) : Type := Scene -> result A.

Section Script.
Context `{Glm}.

Definition done {A} (x : A) : Script A := fun sc => Done x sc.

Definition andthen {A B} (m : Script A) (k : A -> Script B) : Script B :=
  fun sc => match m sc with
            | Done x sc' => k x sc'
            | Stopped f => Stopped f
            end.

Definition stop {A} (f : fault) : Script A := fun _ => Stopped f.

(** A method of the registry, run on the world of the scene. *)
Definition lift {A} (m : M A) : Script A :=
  fun sc => match m (world sc) with
            | Ret x w => Done x {| world := w; outer := outer sc |}
            | Fault f => Stopped f
            end.

Definition call (c : Outer) : Script unit :=
  fun sc => Done tt {| world := world sc;
                       outer := outer sc ++ [(length (trace (world sc)), c)] |}.
End Script.

Declare Scope Script_scope.
Delimit Scope Script_scope with Script.
Notation "x <- m ;; k" := (andthen m (fun x => k))
  (at level 100, m at next level, right associativity) : Script_scope.
Notation "m ;;; k" := (andthen m (fun _ => k))
  (at level 100, right associativity) : Script_scope.

Section Preparation.
Context `{Glm} `{!Platform}.
Local Open Scope Script_scope.

(** *** BindGLTextures *)

Fixpoint BindGLTextures_for (fuel : nat) (i : nat) : Script unit :=
  s <- lift get_this ;;
  if bool_decide (i < m_loadedTextures s) then
    match fuel with
    | O => stop OutOfFuel
    | S fuel =>
      call (glActiveTexture (GL_TEXTURE0 + Z.of_nat i)) ;;;
      e <- lift (texture_at i) ;;
      lift (emit (glBindTexture GL_TEXTURE_2D (TEXTURE_INFO.ID e))) ;;;
      BindGLTextures_for fuel (i + 1)
    end
  else done tt.

Definition BindGLTextures : Script unit :=
  s <- lift get_this ;;
  BindGLTextures_for (m_loadedTextures s) 0.

(** *** LoadSceneTextures

    One of the seven blocks of the method: the call of [CreateGLTexture]
    and the message when it returned false ([message] is the text
    before the newline that ends it). *)
Definition newline : string := String (Ascii.ascii_of_nat 10) EmptyString.

Definition load_or_report (filename tag message : string) : Script unit :=
  loadFailed <- lift (CreateGLTexture filename tag) ;;
  if negb loadFailed then lift (emit (cout [Str (message +:+ newline)])) else done tt.

Definition LoadSceneTextures : Script unit :=
  load_or_report "BackgroundTile.jpg" "background" "JPG [background] failed to load." ;;;
  load_or_report "PotGold.jpg" "pot" "JPG [pot] failed to load." ;;;
  load_or_report "gold-seamless-texture.jpg" "gold" "JPG [gold] failed to load." ;;;
  load_or_report "BlueRusticWood2.png" "rustic" "JPG [rustic] failed to load." ;;;
  load_or_report "melon.bmp" "melon" "JPG [melon] failed to load." ;;;
  load_or_report "leaf.bmp" "leaf" "JPG [leaf] failed to load." ;;;
  load_or_report "knife_handle.jpg" "knife" "JPG [knife] failed to load." ;;;
  BindGLTextures.

(** *** SetupSceneLights

    The calls go through [m_pShaderManager] without a test. *)
Definition through_shader (f : addr -> Script unit) : Script unit :=
  s <- lift get_this ;;
  match m_pShaderManager s with
  | Some p => f p
  | None => stop NullPointer
  end.

Definition light_vec3 (name x y z : string) : Script unit :=
  through_shader (fun p =>
    call (setVec3Value_xyz p name (float_lit x) (float_lit y) (float_lit z))).

Definition light_float (name value : string) : Script unit :=
  through_shader (fun p => lift (emit (setFloatValue p name (float_lit value)))).

Definition SetupSceneLights : Script unit :=
  through_shader (fun p => call (setBoolValue p g_UseLightingName true)) ;;;
  light_vec3 "lightSources[0].position" "0.0f" "100.0f" "0.0f" ;;;
  light_vec3 "lightSources[0].ambientC" "0.2f" "0.2f" "0.2f" ;;;
  light_vec3 "lightSources[0].diffuseC" "1.0f" "1.0f" "1.0f" ;;;
  light_vec3 "lightSources[0].specularC" "0.8f" "0.8f" "0.8f" ;;;
  light_float "lightSources[0].focalStr" "25.0f" ;;;
  light_float "lightSources[0].specularInt" "0.9f" ;;;
  light_vec3 "lightSources[1].position" "-2.0f" "0.0f" "10.0f" ;;;
  light_vec3 "lightSources[1].ambientC" "0.01f" "0.01f" "0.1f" ;;;
  light_vec3 "lightSources[1].diffuseC" "0.5f" "0.5f" "1.0f" ;;;
  light_vec3 "lightSources[1].specularC" "0.05f" "0.05f" "1.0f" ;;;
  light_float "lightSources[1].focalStr" "1.5f" ;;;
  light_float "lightSources[1].specularInt" "0.9f".

(** *** PrepareScene *)
Definition PrepareScene : Script unit :=
  lift DefineObjectMaterials ;;;
  SetupSceneLights ;;;
  LoadSceneTextures ;;;
  call LoadPlaneMesh ;;;
  call LoadSphereMesh ;;;
  call LoadBoxMesh ;;;
  call LoadTorusMesh ;;;
  call LoadTaperedCylinderMesh.

(** *** ~SceneManager() *)
Definition SceneManager_delete : Script unit :=
  s <- lift get_this ;;
  lift (put_this (set_pShaderManager s None)) ;;;
  call delete_ShapeMeshes ;;;
  lift DestroyGLTextures ;;;
  s <- lift get_this ;;
  lift (put_this (set_objectMaterials s [])).

End Preparation.

(** ** RenderScene

    The five drawing methods, call by call.  The locals of a method
    only carry the literals to the next call of [SetTransformations],
    so the literals are written at the call.  [indeterminate] is what
    the local record of [SetShaderMaterial] holds when it is
    declared. *)

Section Rendering.
Context `{Glm} `{!Platform}.
Variable indeterminate : OBJECT_MATERIAL.t.
Local Open Scope Script_scope.

Definition transform (sx sy sz rx ry rz px py pz : string) : Script unit :=
  lift (SetTransformations (vec3_lit sx sy sz)
          (float_lit rx) (float_lit ry) (float_lit rz) (vec3_lit px py pz)).

Definition uv_scale (u v : string) : Script unit :=
  lift (SetTextureUVScale (float_lit u) (float_lit v)).

Definition texture (textureTag : string) : Script unit :=
  lift (SetShaderTexture textureTag).

Definition material (materialTag : string) : Script unit :=
  lift (SetShaderMaterial indeterminate materialTag).

Definition DrawBackDrop : Script unit :=
  transform "50.0f" "1.0f" "50.0f" "90.0f" "0.0f" "0.0f" "0.0f" "0.0f" "-10.0f" ;;;
  uv_scale "1.0" "1.0" ;;;
  texture "background" ;;;
  material "turqoise" ;;;
  call DrawPlaneMesh.

Definition DrawVase : Script unit :=
  (* the torus at the base *)
  transform "2.5f" "2.5f" "10.0f" "90.0f" "0.0f" "0.0f" "4.0f" "3.0f" "0.0f" ;;;
  uv_scale "2.5" "2.5" ;;;
  texture "pot" ;;;
  material "silver" ;;;
  call DrawTorusMesh ;;;
  (* the tapered cylinder on top *)
  transform "2.5f" "1.5f" "2.5f" "0.0f" "0.0f" "0.0f" "4.0f" "5.0f" "0.0f" ;;;
  uv_scale "2.5" "0.5" ;;;
  material "silver" ;;;
  texture "pot" ;;;
  call DrawTaperedCylinderMesh ;;;
  (* the handle *)
  transform "2.8f" "3.5f" "0.5f" "130.0f" "35.0f" "40.0f" "3.8f" "5.3f" "0.5f" ;;;
  texture "gold" ;;;
  material "metal" ;;;
  call DrawHalfTorusMesh.

Definition DrawChest : Script unit :=
  transform "24.0f" "12.0f" "8.0f" "0.0f" "0.0f" "0.0f" "0.0f" "-5.0f" "0.0f" ;;;
  uv_scale "1.0" "1.0" ;;;
  material "bluewood" ;;;
  texture "rustic" ;;;
  call DrawBoxMesh ;;;
  (* strap 1 *)
  transform "0.8f" "11.8f" "0.5f" "0.0f" "0.0f" "0.0f" "-6.0f" "-5.0f" "4.0f" ;;;
  texture "knife" ;;;
  material "blackmetal" ;;;
  call DrawBoxMesh ;;;
  (* strap 2 *)
  transform "0.8f" "11.8f" "0.5f" "0.0f" "0.0f" "0.0f" "6.0f" "-5.0f" "4.0f" ;;;
  texture "knife" ;;;
  material "blackmetal" ;;;
  call DrawBoxMesh.

Definition DrawMelon : Script unit :=
  transform "3.5f" "2.5f" "2.5f" "-70.0f" "0.0f" "-40.0f" "-3.0f" "3.5f" "-2.0f" ;;;
  uv_scale "1.0" "1.0" ;;;
  material "cheese" ;;;
  texture "melon" ;;;
  call DrawSphereMesh.

Definition DrawLeaves : Script unit :=
  transform "1.3f" "0.8f" "0.01f" "0.0f" "0.0f" "0.0f" "-7.5f" "2.0f" "0.7f" ;;;
  uv_scale "1.0" "1.0" ;;;
  material "turqoise" ;;;
  texture "leaf" ;;;
  call DrawSphereMesh ;;;
  transform "1.0f" "0.6f" "0.01f" "0.0f" "0.0f" "-5.0f" "-5.0f" "2.0f" "0.7f" ;;;
  call DrawSphereMesh ;;;
  transform "1.0f" "0.6f" "0.01f" "0.0f" "0.0f" "75.0f" "-6.1f" "3.0f" "0.7f" ;;;
  call DrawSphereMesh ;;;
  (* second cluster *)
  transform "1.0f" "0.6f" "0.01f" "0.0f" "0.0f" "-25.0f" "-0.5f" "1.7f" "2.0f" ;;;
  call DrawSphereMesh ;;;
  transform "1.0f" "0.6f" "0.01f" "0.0f" "0.0f" "75.0f" "1.0f" "1.7f" "2.0f" ;;;
  call DrawSphereMesh ;;;
  (* third *)
  transform "1.0f" "0.6f" "0.01f" "0.0f" "0.0f" "25.0f" "5.3f" "5.7f" "2.3f" ;;;
  call DrawSphereMesh ;;;
  (* last cluster *)
  transform "1.0f" "0.6f" "0.01f" "0.0f" "0.0f" "-75.0f" "6.3f" "1.7f" "2.6f" ;;;
  call DrawSphereMesh ;;;
  transform "1.0f" "0.6f" "0.01f" "0.0f" "0.0f" "55.0f" "7.8f" "1.7f" "2.5f" ;;;
  call DrawSphereMesh.

Definition RenderScene : Script unit :=
  DrawBackDrop ;;;
  DrawVase ;;;
  DrawChest ;;;
  DrawMelon ;;;
  DrawLeaves.

End Rendering.

(** ** What a stretch of calls did to the textures *)

(** The texture bound to [GL_TEXTURE_2D] by the last [glBindTexture]
    of the stretch, and the images the stretch freed. *)
Definition bound_texture `{Glm} (tr : list Event) : option Z :=
  last (omap (fun e => match e with
                       | glBindTexture GL_TEXTURE_2D texture => Some texture
                       | _ => None
                       end) tr).

Definition freed `{Glm} (tr : list Event) : list Image :=
  omap (fun e => match e with stbi_image_free image => Some image | _ => None end) tr.

(** The five calls by which [SetShaderMaterial] hands a material to
    the shader. *)
Definition material_calls `{Glm} (p : addr) (material : OBJECT_MATERIAL.t) : list Event :=
  [setVec3Value p "material.ambientColor" (OBJECT_MATERIAL.ambientColor material);
   setFloatValue p "material.ambientStrength" (OBJECT_MATERIAL.ambientStrength material);
   setVec3Value p "material.diffuseColor" (OBJECT_MATERIAL.diffuseColor material);
   setVec3Value p "material.specularColor" (OBJECT_MATERIAL.specularColor material);
   setFloatValue p "material.shininess" (OBJECT_MATERIAL.shininess material)].

(** The matrix [SetTransformations] computes. *)
Definition model_matrix `{Glm} (scaleXYZ : vec3 float)
    (XrotationDegrees YrotationDegrees ZrotationDegrees : float)
    (positionXYZ : vec3 float) : mat4 :=
  (glm_translate positionXYZ
   * glm_rotate (glm_radians XrotationDegrees)
       (Vec3 (float_lit "1.0f") (float_lit "0.0f") (float_lit "0.0f"))
   * glm_rotate (glm_radians YrotationDegrees)
       (Vec3 (float_lit "0.0f") (float_lit "1.0f") (float_lit "0.0f"))
   * glm_rotate (glm_radians ZrotationDegrees)
       (Vec3 (float_lit "0.0f") (float_lit "0.0f") (float_lit "1.0f"))
   * glm_scale scaleXYZ)%mat4.

(** The values [setSampler2DValue] was called with in a stretch of
    calls, and the meshes drawn among the calls outside the registry. *)
Definition samplers `{Glm} (tr : list Event) : list Z :=
  omap (fun e => match e with setSampler2DValue _ _ value => Some value | _ => None end) tr.

Definition is_draw `{Glm} (c : Outer) : bool :=
  match c with
  | DrawPlaneMesh | DrawSphereMesh | DrawBoxMesh | DrawTorusMesh
  | DrawHalfTorusMesh | DrawTaperedCylinderMesh => true
  | _ => false
  end.

Definition draws `{Glm} (calls : list (nat * Outer)) : list Outer :=
  filter (fun c => is_draw c = true) (snd <$> calls).

(** The tags that [RenderScene] passes to [SetShaderMaterial] and to
    [SetShaderTexture]. *)
Definition rendered_materials : list string :=
  ["turqoise"; "silver"; "metal"; "bluewood"; "blackmetal"; "cheese"].

Definition rendered_textures : list string :=
  ["background"; "pot"; "gold"; "rustic"; "knife"; "melon"; "leaf"].

(** What [SetShaderMaterial] sends on a tag: nothing when no material
    is defined, else the values of the first material with the tag, or
    of the local record when there is none. *)
Definition material_sent `{Glm} (s : SceneManager) (p : addr)
    (indeterminate : OBJECT_MATERIAL.t) (materialTag : string) : list Event :=
  match m_objectMaterials s with
  | [] => []
  | _ :: _ =>
    material_calls p
      match first_material materialTag (m_objectMaterials s) with
      | Some m => copy_material m indeterminate
      | None => indeterminate
      end
  end.

(** The scene with these members, this trace and these outer calls. *)
Definition at_scene `{Glm} (s : SceneManager) (tr : list Event)
    (calls : list (nat * Outer)) : Scene :=
  {| world := {| this := s; trace := tr |}; outer := calls |}.

(** The calls [glActiveTexture (GL_TEXTURE0 + i)], [i] counting up
    from [first] for [count] units, the one for unit [first] placed
    after [stamp] calls of the trace and each next one one call
    later. *)
Fixpoint activations `{Glm} (stamp first count : nat) : list (nat * Outer) :=
  match count with
  | O => []
  | S count =>
    (stamp, glActiveTexture (GL_TEXTURE0 + Z.of_nat first))
      :: activations (S stamp) (S first) count
  end.

(** The blocks of [LoadSceneTextures] one after the other, then [k]. *)
Fixpoint load_then `{Glm} `{!Platform} (blocks : list (string * string * string))
    (k : Script unit) : Script unit :=
  match blocks with
  | [] => k
  | (filename, tag, message) :: blocks =>
    andthen (load_or_report filename tag message) (fun _ => load_then blocks k)
  end.

Definition scene_blocks : list (string * string * string) :=
  [("BackgroundTile.jpg", "background", "JPG [background] failed to load.");
   ("PotGold.jpg", "pot", "JPG [pot] failed to load.");
   ("gold-seamless-texture.jpg", "gold", "JPG [gold] failed to load.");
   ("BlueRusticWood2.png", "rustic", "JPG [rustic] failed to load.");
   ("melon.bmp", "melon", "JPG [melon] failed to load.");
   ("leaf.bmp", "leaf", "JPG [leaf] failed to load.");
   ("knife_handle.jpg", "knife", "JPG [knife] failed to load.")].

(** Every file of the blocks decodes, at any time, to a picture of 3
    or 4 channels. *)
Definition all_load `{Glm} `{!Platform} (blocks : list (string * string * string)) : Prop :=
  ∀ tr filename, filename ∈ (fun b => fst (fst b)) <$> blocks ->
    ∃ image, stbi_load_result tr filename = Some image ∧ supported image.

(** ** More worlds to run the methods in *)

Section Demo_scenes.
#[local] Existing Instance sym_glm.
#[local] Existing Instance demo_platform.

(** Materials defined, no shader manager. *)
Definition demo_null_materials : World :=
  {| this := set_objectMaterials (SceneManager_new None) scene_materials;
     trace := [] |}.

(** The tag pot loaded twice. *)
Definition demo_pot_again : World :=
  fst (replayed [("PotGold.jpg", "pot"); ("melon.bmp", "pot")]).

(** A newly constructed scene manager that has made no call yet. *)
Definition demo_fresh : Scene := {| world := demo_new; outer := [] |}.

(** The seven textures loaded, no material defined, and the same with
    the six materials of the scene. *)
Definition demo_loaded : Scene := {| world := demo_scene; outer := [] |}.

Definition demo_prepared : Scene :=
  at_scene (set_objectMaterials (this demo_scene) scene_materials) [] [].

Definition demo_entries : list TEXTURE_INFO.t :=
  [entry "background" 1; entry "pot" 2; entry "gold" 3; entry "rustic" 4;
   entry "melon" 5; entry "leaf" 6; entry "knife" 7].

End Demo_scenes.

(** ** The loops *)

Section Loops.
Context `{Glm} `{!Platform}.
Implicit Types (w : World) (tag : string).

Lemma texture_at_eq index w :
  texture_at index w
  = match m_textureIDs (this w) !! index with
    | Some e => Ret e w
    | None => Fault (OutOfBounds index)
    end.
Proof.
  unfold texture_at, bind, get_this, ret, fail. by destruct (_ !! _).
Qed.

Lemma material_at_eq index w :
  material_at index w
  = match m_objectMaterials (this w) !! index with
    | Some m => Ret m w
    | None => Fault (OutOfBounds index)
    end.
Proof.
  unfold material_at, bind, get_this, ret, fail. by destruct (_ !! _).
Qed.

Lemma FindTextureID_while_found fuel tag textureID index w :
  FindTextureID_while fuel tag textureID index true w = Ret textureID w.
Proof.
  destruct fuel; simpl; unfold bind, get_this, ret;
    by rewrite andb_false_r.
Qed.

Lemma FindTextureSlot_while_found fuel tag textureSlot index w :
  FindTextureSlot_while fuel tag textureSlot index true w = Ret textureSlot w.
Proof.
  destruct fuel; simpl; unfold bind, get_this, ret;
    by rewrite andb_false_r.
Qed.

Lemma drop_loaded_cons w index :
  m_loadedTextures (this w) <= length (m_textureIDs (this w)) ->
  index < m_loadedTextures (this w) ->
  ∃ e, m_textureIDs (this w) !! index = Some e
       ∧ drop index (loaded w) = e :: drop (S index) (loaded w).
Proof.
  intros Hcap Hlt.
  destruct (lookup_lt_is_Some_2 (m_textureIDs (this w)) index) as [e He]; [lia|].
  exists e. split; [done|].
  apply drop_S. unfold loaded. by rewrite lookup_take_lt.
Qed.

Lemma drop_loaded_nil w index :
  ¬ index < m_loadedTextures (this w) -> drop index (loaded w) = [].
Proof.
  intros Hge. apply drop_ge. unfold loaded. rewrite length_take. lia.
Qed.

Lemma FindTextureID_while_scan fuel tag textureID index w :
  m_loadedTextures (this w) <= length (m_textureIDs (this w)) ->
  m_loadedTextures (this w) - index < fuel ->
  FindTextureID_while fuel tag textureID index false w
  = Ret (scan_ID tag textureID (drop index (loaded w))) w.
Proof.
  intros Hcap. revert index.
  induction fuel as [|fuel IH]; intros index Hfuel; [lia|].
  simpl. unfold bind at 1, get_this at 1.
  case_bool_decide as Hlt; simpl.
  - destruct (drop_loaded_cons w index Hcap Hlt) as (e & He & ->).
    unfold bind at 1. rewrite texture_at_eq, He. cbn [scan_ID].
    destruct (String.eqb (TEXTURE_INFO.tag e) tag).
    + apply FindTextureID_while_found.
    + rewrite IH by lia. by rewrite Nat.add_1_r.
  - by rewrite drop_loaded_nil.
Qed.

Lemma FindTextureSlot_while_scan fuel tag textureSlot index w :
  m_loadedTextures (this w) <= length (m_textureIDs (this w)) ->
  m_loadedTextures (this w) - index < fuel ->
  FindTextureSlot_while fuel tag textureSlot index false w
  = Ret (scan_slot tag textureSlot index (drop index (loaded w))) w.
Proof.
  intros Hcap. revert index.
  induction fuel as [|fuel IH]; intros index Hfuel; [lia|].
  simpl. unfold bind at 1, get_this at 1.
  case_bool_decide as Hlt; simpl.
  - destruct (drop_loaded_cons w index Hcap Hlt) as (e & He & ->).
    unfold bind at 1. rewrite texture_at_eq, He. cbn [scan_slot].
    destruct (String.eqb (TEXTURE_INFO.tag e) tag).
    + apply FindTextureSlot_while_found.
    + rewrite IH by lia. by rewrite Nat.add_1_r.
  - by rewrite drop_loaded_nil.
Qed.

Lemma FindTextureID_scan tag w :
  m_loadedTextures (this w) <= length (m_textureIDs (this w)) ->
  FindTextureID tag w = Ret (scan_ID tag (-1) (loaded w)) w.
Proof.
  intros Hcap. unfold FindTextureID, bind at 1, get_this at 1.
  rewrite FindTextureID_while_scan by (done || lia). done.
Qed.

Lemma FindTextureSlot_scan tag w :
  m_loadedTextures (this w) <= length (m_textureIDs (this w)) ->
  FindTextureSlot tag w = Ret (scan_slot tag (-1) 0 (loaded w)) w.
Proof.
  intros Hcap. unfold FindTextureSlot, bind at 1, get_this at 1.
  rewrite FindTextureSlot_while_scan by (done || lia). done.
Qed.

End Loops.

Section Materials.
Context `{Glm} `{!Platform}.
Implicit Types (w : World) (tag : string) (material : OBJECT_MATERIAL.t).

Lemma FindMaterial_while_found fuel tag material index w :
  FindMaterial_while fuel tag material index true w = Ret (true, material) w.
Proof.
  destruct fuel; simpl; unfold bind, get_this, ret;
    by rewrite andb_false_r.
Qed.

Lemma FindMaterial_while_scan fuel tag material index w :
  length (m_objectMaterials (this w)) - index < fuel ->
  FindMaterial_while fuel tag material index false w
  = Ret (match first_material tag (drop index (m_objectMaterials (this w))) with
         | Some m => (true, copy_material m material)
         | None => (false, material)
         end) w.
Proof.
  revert index.
  induction fuel as [|fuel IH]; intros index Hfuel; [lia|].
  simpl. unfold bind at 1, get_this at 1.
  case_bool_decide as Hlt; simpl.
  - destruct (lookup_lt_is_Some_2 _ _ Hlt) as [m Hm].
    rewrite (drop_S _ _ _ Hm).
    unfold bind at 1. rewrite material_at_eq, Hm.
    unfold first_material. cbn [find].
    destruct (String.eqb (OBJECT_MATERIAL.tag m) tag).
    + apply FindMaterial_while_found.
    + rewrite IH by lia. by rewrite Nat.add_1_r.
  - rewrite drop_ge by lia. done.
Qed.

(** The whole of [FindMaterial], in one equation. *)
Lemma FindMaterial_eq tag material w :
  FindMaterial tag material w
  = match m_objectMaterials (this w) with
    | [] => Ret (false, material) w
    | _ :: _ =>
      Ret (true,
           match first_material tag (m_objectMaterials (this w)) with
           | Some m => copy_material m material
           | None => material
           end) w
    end.
Proof.
  unfold FindMaterial, bind at 1, get_this at 1.
  destruct (m_objectMaterials (this w)) as [|m0 l] eqn:Hl; [done|].
  rewrite bool_decide_eq_false_2 by done.
  unfold bind. rewrite FindMaterial_while_scan by (rewrite Hl; simpl; lia).
  rewrite Hl, drop_0. unfold ret.
  by destruct (first_material tag (m0 :: l)).
Qed.

Lemma first_material_None tag (l : list OBJECT_MATERIAL.t) :
  first_material tag l = None <->
  ∀ m, m ∈ l -> OBJECT_MATERIAL.tag m ≠ tag.
Proof.
  unfold first_material. induction l as [|m0 l IH]; simpl.
  - split; [|done]. intros _ m Hm. by apply elem_of_nil in Hm.
  - destruct (String.eqb_spec (OBJECT_MATERIAL.tag m0) tag) as [Heq|Hne].
    + split; [done|]. intros Hall. destruct (Hall m0); [left|done].
    + rewrite IH. split.
      * intros Hall m [->|Hm]%elem_of_cons; auto.
      * intros Hall m Hm. apply Hall. by right.
Qed.

End Materials.

(** ** CreateGLTexture, case by case *)

Section Textures.
Context `{Glm} `{!Platform}.
Implicit Types (w : World) (tag filename : string).

Ltac run_CreateGLTexture :=
  unfold CreateGLTexture, call_stbi_load, call_glGenTextures,
    store_ID, store_tag;
  unfold bind, emit, get_trace, get_this, put_this, ret, fail; simpl.

Lemma CreateGLTexture_unreadable filename tag w :
  decoded w filename = None ->
  ∃ tr, CreateGLTexture filename tag w
        = Ret false {| this := this w; trace := tr |}.
Proof.
  unfold decoded. intros Hdec. run_CreateGLTexture. rewrite Hdec. eauto.
Qed.

Lemma CreateGLTexture_unsupported filename tag w image :
  decoded w filename = Some image ->
  ¬ supported image ->
  ∃ tr, CreateGLTexture filename tag w
        = Ret false {| this := this w; trace := tr |}.
Proof.
  unfold decoded, supported. intros Hdec Hch. run_CreateGLTexture.
  rewrite Hdec.
  destruct (Z.eqb_spec (colorChannels image) 3); [tauto|].
  destruct (Z.eqb_spec (colorChannels image) 4); [tauto|].
  eauto.
Qed.

Lemma last_generated_snoc (tr : list Event) n name (tail : list Event) :
  generated tail = [] ->
  last (generated ((tr ++ [glGenTextures n name]) ++ tail)) = Some name.
Proof.
  intros Htail. unfold generated in *.
  rewrite !omap_app, Htail, app_nil_r. simpl. apply last_snoc.
Qed.

Lemma CreateGLTexture_loaded filename tag w image :
  decoded w filename = Some image ->
  supported image ->
  m_loadedTextures (this w) < length (m_textureIDs (this w)) ->
  ∃ tr textureID,
    CreateGLTexture filename tag w
    = Ret true {| this := registered (this w) tag textureID; trace := tr |}
    ∧ last (generated tr) = Some textureID.
Proof.
  unfold decoded, supported. intros Hdec Hch Hlt.
  destruct (lookup_lt_is_Some_2 _ _ Hlt) as [e He].
  run_CreateGLTexture. rewrite Hdec.
  destruct Hch as [-> | ->]; simpl;
    rewrite He; simpl;
    rewrite list_lookup_insert_eq by done; simpl;
    rewrite list_insert_insert_eq;
    eexists _, _; (split; [reflexivity|]);
    rewrite <- !(assoc_L (++) (_ ++ [glGenTextures _ _]));
    by apply last_generated_snoc.
Qed.

Lemma CreateGLTexture_overflow filename tag w image :
  decoded w filename = Some image ->
  supported image ->
  length (m_textureIDs (this w)) <= m_loadedTextures (this w) ->
  CreateGLTexture filename tag w = Fault (OutOfBounds (m_loadedTextures (this w))).
Proof.
  unfold decoded, supported. intros Hdec Hch Hge.
  run_CreateGLTexture. rewrite Hdec.
  destruct Hch as [-> | ->]; simpl;
    by rewrite lookup_ge_None_2.
Qed.

Lemma CreateGLTexture_true_inv filename tag w w' :
  CreateGLTexture filename tag w = Ret true w' ->
  m_loadedTextures (this w) < length (m_textureIDs (this w))
  ∧ ∃ textureID,
      last (generated (trace w')) = Some textureID
      ∧ this w' = registered (this w) tag textureID.
Proof.
  intros Hrun.
  destruct (decoded w filename) as [image|] eqn:Hdec.
  - destruct (decide (supported image)) as [Hch|Hch].
    + destruct (decide (m_loadedTextures (this w) < length (m_textureIDs (this w))))
        as [Hlt|Hge].
      * split; [done|].
        destruct (CreateGLTexture_loaded filename tag w image Hdec Hch Hlt)
          as (tr & textureID & Hok & Hlast).
        rewrite Hok in Hrun. injection Hrun as <-. eauto.
      * rewrite (CreateGLTexture_overflow filename tag w image) in Hrun
          by (done || lia).
        done.
    + destruct (CreateGLTexture_unsupported filename tag w image Hdec Hch)
        as (tr & Hno).
      rewrite Hno in Hrun. done.
  - destruct (CreateGLTexture_unreadable filename tag w Hdec) as (tr & Hno).
    rewrite Hno in Hrun. done.
Qed.

Lemma CreateGLTexture_false_inv filename tag w w' :
  CreateGLTexture filename tag w = Ret false w' -> this w' = this w.
Proof.
  intros Hrun.
  destruct (decoded w filename) as [image|] eqn:Hdec.
  - destruct (decide (supported image)) as [Hch|Hch].
    + destruct (decide (m_loadedTextures (this w) < length (m_textureIDs (this w))))
        as [Hlt|Hge].
      * destruct (CreateGLTexture_loaded filename tag w image Hdec Hch Hlt)
          as (tr & textureID & Hok & _).
        rewrite Hok in Hrun. done.
      * rewrite (CreateGLTexture_overflow filename tag w image) in Hrun
          by (done || lia).
        done.
    + destruct (CreateGLTexture_unsupported filename tag w image Hdec Hch)
        as (tr & Hno).
      rewrite Hno in Hrun. by injection Hrun as <-.
  - destruct (CreateGLTexture_unreadable filename tag w Hdec) as (tr & Hno).
    rewrite Hno in Hrun. by injection Hrun as <-.
Qed.

(** The constructor leaves a table of [TEXTURE_CAPACITY] free
    entries. *)
Lemma SceneManager_new_table pShaderManager :
  m_textureIDs (SceneManager_new pShaderManager)
  = replicate TEXTURE_CAPACITY (TEXTURE_INFO.Build "/0" (-1)).
Proof. reflexivity. Qed.

(** The table of a scene manager lists what was inserted, in the
    order of insertion, in its first [m_loadedTextures] entries. *)
Lemma inserted_table w l :
  inserted w l ->
  length (m_textureIDs (this w)) = TEXTURE_CAPACITY
  ∧ m_loadedTextures (this w) = length l
  ∧ loaded w = l.
Proof.
  induction 1 as [p tr | w l filename tag w' textureID _ IH Hrun Hlast
                 | w l filename tag w' _ IH Hrun
                 | w l w' _ IH Htbl Hn].
  - done.
  - destruct IH as (Hlen & Hn & Hl).
    apply CreateGLTexture_true_inv in Hrun as (Hlt & h & Hlast' & Hw').
    assert (h = textureID) as -> by congruence.
    unfold loaded in *. rewrite Hw'. unfold registered. simpl.
    rewrite length_insert, length_app. simpl.
    repeat split; [done|lia|].
    rewrite Nat.add_1_r.
    erewrite take_S_r by (by apply list_lookup_insert_eq).
    rewrite take_insert_ge by done. by rewrite Hl.
  - apply CreateGLTexture_false_inv in Hrun. unfold loaded in *.
    by rewrite Hrun.
  - unfold loaded in *. by rewrite Htbl, Hn.
Qed.

Lemma inserted_capacity w l :
  inserted w l ->
  m_loadedTextures (this w) <= length (m_textureIDs (this w)).
Proof.
  intros Hins. destruct (inserted_table w l Hins) as (Hlen & Hn & Hl).
  rewrite <- Hl in Hn. unfold loaded in Hn.
  rewrite length_take in Hn. lia.
Qed.

(** *** The scans on a list *)

Lemma scan_ID_miss tag miss (l : list TEXTURE_INFO.t) :
  (∀ e, e ∈ l -> TEXTURE_INFO.tag e ≠ tag) -> scan_ID tag miss l = miss.
Proof.
  induction l as [|e l IH]; simpl; [done|]. intros Hall.
  destruct (String.eqb_spec (TEXTURE_INFO.tag e) tag) as [Heq|Hne].
  - destruct (Hall e); [left|done].
  - apply IH. intros e' He'. apply Hall. by right.
Qed.

Lemma scan_slot_miss tag miss index (l : list TEXTURE_INFO.t) :
  (∀ e, e ∈ l -> TEXTURE_INFO.tag e ≠ tag) -> scan_slot tag miss index l = miss.
Proof.
  revert index. induction l as [|e l IH]; simpl; [done|]. intros index Hall.
  destruct (String.eqb_spec (TEXTURE_INFO.tag e) tag) as [Heq|Hne].
  - destruct (Hall e); [left|done].
  - apply IH. intros e' He'. apply Hall. by right.
Qed.

(** The first match: an entry at position [i] with the tag, none
    before it. *)
Lemma scan_ID_first tag miss (l : list TEXTURE_INFO.t) i e :
  l !! i = Some e ->
  TEXTURE_INFO.tag e = tag ->
  (∀ j e', j < i -> l !! j = Some e' -> TEXTURE_INFO.tag e' ≠ tag) ->
  scan_ID tag miss l = TEXTURE_INFO.ID e.
Proof.
  revert i. induction l as [|e0 l IH]; intros i Hi Htag Hbefore; [done|].
  simpl. destruct i as [|i]; simpl in Hi.
  - injection Hi as ->. by rewrite (proj2 (String.eqb_eq _ _) Htag).
  - destruct (String.eqb_spec (TEXTURE_INFO.tag e0) tag) as [Heq|Hne].
    + destruct (Hbefore 0 e0); [lia|done|done].
    + apply (IH i); [done|done|].
      intros j e' Hj He'. apply (Hbefore (S j) e'); [lia|done].
Qed.

Lemma scan_slot_first tag miss index (l : list TEXTURE_INFO.t) i e :
  l !! i = Some e ->
  TEXTURE_INFO.tag e = tag ->
  (∀ j e', j < i -> l !! j = Some e' -> TEXTURE_INFO.tag e' ≠ tag) ->
  scan_slot tag miss index l = Z.of_nat (index + i).
Proof.
  revert index i.
  induction l as [|e0 l IH]; intros index i Hi Htag Hbefore; [done|].
  simpl. destruct i as [|i]; simpl in Hi.
  - injection Hi as ->. rewrite (proj2 (String.eqb_eq _ _) Htag).
    by rewrite Nat.add_0_r.
  - destruct (String.eqb_spec (TEXTURE_INFO.tag e0) tag) as [Heq|Hne].
    + destruct (Hbefore 0 e0); [lia|done|done].
    + rewrite (IH (S index) i); [f_equal; lia|done|done|].
      intros j e' Hj He'. apply (Hbefore (S j) e'); [lia|done].
Qed.

Lemma replay_inserted calls w l w' l' :
  inserted w l -> replay calls w l = Some (w', l') -> inserted w' l'.
Proof.
  revert w l. induction calls as [|[filename tag] calls IH]; simpl; intros w l Hins.
  - by intros [= <- <-].
  - destruct (CreateGLTexture filename tag w) as [[] w1|] eqn:Hrun; [| |done].
    + destruct (last (generated (trace w1))) as [textureID|] eqn:Hlast; [|done].
      apply IH. by eapply inserted_loaded.
    + apply IH. by eapply inserted_failed.
Qed.

End Textures.

(** ** The properties of the registry *)

Section Claims.
Context `{Glm} `{!Platform}.
Implicit Types (w : World) (tag filename : string)
  (material : OBJECT_MATERIAL.t) (l : list TEXTURE_INFO.t).

Lemma first_material_first tag (mats : list OBJECT_MATERIAL.t) i m :
  mats !! i = Some m ->
  OBJECT_MATERIAL.tag m = tag ->
  (∀ j m', j < i -> mats !! j = Some m' -> OBJECT_MATERIAL.tag m' ≠ tag) ->
  first_material tag mats = Some m.
Proof.
  unfold first_material. revert i.
  induction mats as [|m0 mats IH]; intros i Hi Htag Hbefore; [done|].
  simpl. destruct i as [|i]; simpl in Hi.
  - injection Hi as ->. by rewrite (proj2 (String.eqb_eq _ _) Htag).
  - destruct (String.eqb_spec (OBJECT_MATERIAL.tag m0) tag) as [Heq|Hne].
    + destruct (Hbefore 0 m0); [lia|done|done].
    + apply (IH i); [done|done|].
      intros j m' Hj Hm'. apply (Hbefore (S j) m'); [lia|done].
Qed.

(** C2: whenever the material list is not empty, [FindMaterial]
    returns true, whether or not a material has the tag.  The output
    record is left as it was when the scan finds no material with the
    tag; it is overwritten only on a match, with the colours, the
    ambient strength and the shininess of the first material that has
    the tag.  The world is left as it was. *)
Theorem FindMaterial_nonempty_returns_true tag material w :
  m_objectMaterials (this w) ≠ [] ->
  ∃ out,
    FindMaterial tag material w = Ret (true, out) w
    ∧ ((∀ m, m ∈ m_objectMaterials (this w) -> OBJECT_MATERIAL.tag m ≠ tag) ->
       out = material)
    ∧ (∀ i m,
         m_objectMaterials (this w) !! i = Some m ->
         OBJECT_MATERIAL.tag m = tag ->
         (∀ j m', j < i -> m_objectMaterials (this w) !! j = Some m' ->
                  OBJECT_MATERIAL.tag m' ≠ tag) ->
         out = copy_material m material).
Proof.
  intros Hne. rewrite FindMaterial_eq.
  destruct (m_objectMaterials (this w)) as [|m0 mats] eqn:Hl; [done|].
  eexists. split; [reflexivity|]. split.
  - intros Hmiss. apply first_material_None in Hmiss. by rewrite Hmiss.
  - intros i m Hi Htag Hbefore.
    by rewrite (first_material_first tag (m0 :: mats) i m).
Qed.

(** C3: in a scene manager whose successful calls of
    [CreateGLTexture] all had different tags, [FindTextureID] on the
    tag of any of them returns the handle that OpenGL generated in
    that call, and [FindTextureID] on any other tag returns -1. *)
Theorem FindTextureID_after_CreateGLTexture w l :
  inserted w l ->
  NoDup (TEXTURE_INFO.tag <$> l) ->
  (∀ e, e ∈ l ->
     FindTextureID (TEXTURE_INFO.tag e) w = Ret (TEXTURE_INFO.ID e) w)
  ∧ (∀ tag, tag ∉ (TEXTURE_INFO.tag <$> l) ->
       FindTextureID tag w = Ret (-1)%Z w).
Proof.
  intros Hins Hdup.
  pose proof (inserted_capacity w l Hins) as Hcap.
  destruct (inserted_table w l Hins) as (_ & _ & Hl).
  split.
  - intros e [i Hi]%list_elem_of_lookup.
    rewrite FindTextureID_scan, Hl by done. f_equal.
    apply (scan_ID_first _ _ l i e); [done|done|].
    intros j e' Hj He' Heq.
    assert (j = i) as -> by
      (apply (NoDup_lookup _ j i (TEXTURE_INFO.tag e) Hdup);
         rewrite list_lookup_fmap; [rewrite He', <- Heq|rewrite Hi]; done).
    lia.
  - intros tag Hnot.
    rewrite FindTextureID_scan, Hl by done. f_equal.
    apply scan_ID_miss. intros e He ?. apply Hnot.
    apply list_elem_of_fmap. eauto.
Qed.

(** C4: [FindTextureID] and [FindTextureSlot] go through the table in
    the order of insertion and the first entry with the tag wins: of
    the inserted entries that have the tag, the earliest gives the
    handle, respectively its position gives the slot, also when later
    entries share the tag; both return -1 when no inserted entry has
    the tag. *)
Theorem FindTexture_first_match_wins w l tag :
  inserted w l ->
  (∀ i e,
     l !! i = Some e ->
     TEXTURE_INFO.tag e = tag ->
     (∀ j e', j < i -> l !! j = Some e' -> TEXTURE_INFO.tag e' ≠ tag) ->
     FindTextureID tag w = Ret (TEXTURE_INFO.ID e) w
     ∧ FindTextureSlot tag w = Ret (Z.of_nat i) w)
  ∧ ((∀ e, e ∈ l -> TEXTURE_INFO.tag e ≠ tag) ->
     FindTextureID tag w = Ret (-1)%Z w
     ∧ FindTextureSlot tag w = Ret (-1)%Z w).
Proof.
  intros Hins.
  pose proof (inserted_capacity w l Hins) as Hcap.
  destruct (inserted_table w l Hins) as (_ & _ & Hl).
  rewrite FindTextureID_scan, FindTextureSlot_scan, Hl by done.
  split.
  - intros i e Hi Htag Hbefore.
    by rewrite (scan_ID_first tag _ l i e),
               (scan_slot_first tag _ 0 l i e).
  - intros Hmiss. by rewrite scan_ID_miss, scan_slot_miss.
Qed.

(** C5, as the code has it: [CreateGLTexture] returns false when the
    file cannot be read and when the picture has neither 3 nor 4
    channels; the table and the count are then as before, so that a
    lookup of the tag gives after the call what it gave before it,
    which is -1 when no entry in use had the tag.  With fewer than 16
    textures loaded it returns true exactly when the file decodes to
    3 or 4 channels, and then the tag with the handle generated in
    the call is written behind the entries in use and the count goes
    up by one. *)
Theorem CreateGLTexture_outcome filename tag w :
  length (m_textureIDs (this w)) = TEXTURE_CAPACITY ->
  m_loadedTextures (this w) <= TEXTURE_CAPACITY ->
  ((decoded w filename = None
    ∨ ∃ image, decoded w filename = Some image ∧ ¬ supported image) ->
   ∃ w' before,
     CreateGLTexture filename tag w = Ret false w'
     ∧ m_textureIDs (this w') = m_textureIDs (this w)
     ∧ m_loadedTextures (this w') = m_loadedTextures (this w)
     ∧ FindTextureID tag w = Ret before w
     ∧ FindTextureID tag w' = Ret before w'
     ∧ ((∀ e, e ∈ loaded w -> TEXTURE_INFO.tag e ≠ tag) -> before = (-1)%Z))
  ∧ (m_loadedTextures (this w) < TEXTURE_CAPACITY ->
     (∀ image, decoded w filename = Some image -> supported image ->
        ∃ w' textureID,
          CreateGLTexture filename tag w = Ret true w'
          ∧ last (generated (trace w')) = Some textureID
          ∧ m_textureIDs (this w')
            = <[m_loadedTextures (this w) := TEXTURE_INFO.Build tag textureID]>
                (m_textureIDs (this w))
          ∧ m_loadedTextures (this w') = m_loadedTextures (this w) + 1
          ∧ loaded w' = loaded w ++ [TEXTURE_INFO.Build tag textureID])
     ∧ ((∃ w', CreateGLTexture filename tag w = Ret true w')
        <-> (∃ image, decoded w filename = Some image ∧ supported image))).
Proof.
  intros Hlen Hcap. split.
  - intros Hfail.
    assert (∃ tr, CreateGLTexture filename tag w
                  = Ret false {| this := this w; trace := tr |}) as [tr Hrun].
    { destruct Hfail as [Hdec | (image & Hdec & Hch)].
      - by apply CreateGLTexture_unreadable.
      - by eapply CreateGLTexture_unsupported. }
    exists {| this := this w; trace := tr |}, (scan_ID tag (-1) (loaded w)).
    split; [done|]. split; [done|]. split; [done|].
    split; [|split].
    + apply FindTextureID_scan. lia.
    + rewrite FindTextureID_scan by (simpl; lia). done.
    + apply scan_ID_miss.
  - intros Hlt. split.
    + intros image Hdec Hch.
      destruct (CreateGLTexture_loaded filename tag w image Hdec Hch)
        as (tr & textureID & Hrun & Hlast); [lia|].
      eexists _, textureID. split; [exact Hrun|].
      repeat split; [done|].
      unfold loaded, registered. simpl. rewrite Nat.add_1_r.
      erewrite take_S_r by (apply list_lookup_insert_eq; lia).
      by rewrite take_insert_ge.
    + split.
      * intros [w' Hrun].
        destruct (decoded w filename) as [image|] eqn:Hdec.
        -- destruct (decide (supported image)) as [Hch|Hch]; [eauto|].
           destruct (CreateGLTexture_unsupported filename tag w image Hdec Hch)
             as (tr & Hno).
           rewrite Hno in Hrun. done.
        -- destruct (CreateGLTexture_unreadable filename tag w Hdec) as (tr & Hno).
           rewrite Hno in Hrun. done.
      * intros (image & Hdec & Hch).
        destruct (CreateGLTexture_loaded filename tag w image Hdec Hch)
          as (tr & textureID & Hrun & _); [lia|].
        eauto.
Qed.

(** C6: the table has 16 entries and [CreateGLTexture] does not test
    the count against them.  At most 16 textures get inserted; once 16
    are, a call whose file decodes to 3 or 4 channels goes on to assign
    to the entry of index 16, which is outside the table. *)
Theorem CreateGLTexture_past_capacity w l :
  inserted w l ->
  length (m_textureIDs (this w)) = 16
  ∧ length l <= 16
  ∧ (length l = 16 ->
     ∀ filename tag image,
       decoded w filename = Some image -> supported image ->
       CreateGLTexture filename tag w = Fault (OutOfBounds 16)).
Proof.
  intros Hins.
  pose proof (inserted_capacity w l Hins) as Hcap.
  destruct (inserted_table w l Hins) as (Hlen & Hn & _).
  change TEXTURE_CAPACITY with 16 in Hlen.
  split; [done|]. split; [lia|].
  intros Hfull filename tag image Hdec Hch.
  rewrite (CreateGLTexture_overflow filename tag w image) by (done || lia).
  by rewrite Hn, Hfull.
Qed.

(** C7: with a shader manager, [SetTransformations] makes one call,
    [setMat4Value] of the uniform "model", and the matrix it sends is
    translation * rotationX * rotationY * rotationZ * scale, the
    products taken from the left in this order, where the rotations
    are by the angles in radians about the x, y and z axes. *)
Theorem SetTransformations_model_matrix
    scaleXYZ XrotationDegrees YrotationDegrees ZrotationDegrees positionXYZ
    p w :
  m_pShaderManager (this w) = Some p ->
  SetTransformations scaleXYZ XrotationDegrees YrotationDegrees
    ZrotationDegrees positionXYZ w
  = Ret tt
      {| this := this w;
         trace := trace w ++
           [setMat4Value p "model"
              (mat4_mul
                 (mat4_mul
                    (mat4_mul
                       (mat4_mul
                          (glm_translate positionXYZ)
                          (glm_rotate (glm_radians XrotationDegrees)
                             (Vec3 (float_lit "1.0f") (float_lit "0.0f") (float_lit "0.0f"))))
                       (glm_rotate (glm_radians YrotationDegrees)
                          (Vec3 (float_lit "0.0f") (float_lit "1.0f") (float_lit "0.0f"))))
                    (glm_rotate (glm_radians ZrotationDegrees)
                       (Vec3 (float_lit "0.0f") (float_lit "0.0f") (float_lit "1.0f"))))
                 (glm_scale scaleXYZ))] |}.
Proof.
  intros Hp. unfold SetTransformations, bind, get_this. by rewrite Hp.
Qed.

(** [DefineObjectMaterials] appends the six materials to the list,
    whatever the list holds. *)
Lemma DefineObjectMaterials_eq w :
  DefineObjectMaterials w
  = Ret tt
      {| this := set_objectMaterials (this w)
                   (m_objectMaterials (this w) ++ scene_materials);
         trace := trace w |}.
Proof.
  unfold DefineObjectMaterials, push_back, bind, get_this, put_this. simpl.
  by rewrite <- !(assoc_L (++)).
Qed.

(** C8: on an empty material list, [DefineObjectMaterials] leaves
    exactly six materials, tagged "silver", "metal", "blackmetal",
    "bluewood", "cheese" and "turqoise" in this order, no two tags
    alike; it touches nothing else. *)
Theorem DefineObjectMaterials_six w :
  m_objectMaterials (this w) = [] ->
  ∃ w',
    DefineObjectMaterials w = Ret tt w'
    ∧ w' = {| this := set_objectMaterials (this w) scene_materials;
              trace := trace w |}
    ∧ length (m_objectMaterials (this w')) = 6
    ∧ OBJECT_MATERIAL.tag <$> m_objectMaterials (this w')
      = ["silver"; "metal"; "blackmetal"; "bluewood"; "cheese"; "turqoise"]
    ∧ NoDup (OBJECT_MATERIAL.tag <$> m_objectMaterials (this w')).
Proof.
  intros Hempty. eexists. split.
  - rewrite DefineObjectMaterials_eq, Hempty. reflexivity.
  - split; [done|]. split; [done|]. split; [done|].
    simpl. apply (bool_decide_unpack _). by vm_compute.
Qed.

(** *** The lookups leave the world alone *)

Ltac frame_of_while IH :=
  simpl; unfold bind at 1, get_this at 1;
  match goal with
  | |- context [bool_decide ?P && bool_decide ?Q] =>
    destruct (bool_decide P && bool_decide Q)
  end;
  [ try done;
    unfold bind at 1; rewrite ?texture_at_eq, ?material_at_eq;
    match goal with
    | |- context [?l !! ?i] => destruct (l !! i); [|done]
    end;
    match goal with
    | |- context [String.eqb ?x ?y] => destruct (String.eqb x y)
    end; apply IH
  | unfold ret; congruence ].

Lemma FindTextureID_while_frame fuel tag textureID index bFound w v w' :
  FindTextureID_while fuel tag textureID index bFound w = Ret v w' -> w' = w.
Proof.
  revert textureID index bFound.
  induction fuel as [|fuel IH]; intros textureID index bFound;
    frame_of_while IH.
Qed.

Lemma FindTextureSlot_while_frame fuel tag textureSlot index bFound w v w' :
  FindTextureSlot_while fuel tag textureSlot index bFound w = Ret v w' -> w' = w.
Proof.
  revert textureSlot index bFound.
  induction fuel as [|fuel IH]; intros textureSlot index bFound;
    frame_of_while IH.
Qed.

(** C9: the three lookups change neither the table, nor the count,
    nor the material list, nor anything else: whenever one of them
    returns, the world is the one it started in.  [FindMaterial]
    always returns, and so do [FindTextureID] and [FindTextureSlot]
    when the count is within the table. *)
Theorem lookups_leave_the_world tag material w :
  (∀ v w', FindTextureID tag w = Ret v w' -> w' = w)
  ∧ (∀ v w', FindTextureSlot tag w = Ret v w' -> w' = w)
  ∧ (∃ v, FindMaterial tag material w = Ret v w)
  ∧ (m_loadedTextures (this w) <= length (m_textureIDs (this w)) ->
     ∃ textureID textureSlot,
       FindTextureID tag w = Ret textureID w
       ∧ FindTextureSlot tag w = Ret textureSlot w).
Proof.
  repeat split.
  - intros v w'. unfold FindTextureID, bind, get_this.
    apply FindTextureID_while_frame.
  - intros v w'. unfold FindTextureSlot, bind, get_this.
    apply FindTextureSlot_while_frame.
  - rewrite FindMaterial_eq. destruct (m_objectMaterials (this w)); eauto.
  - intros Hcap. rewrite FindTextureID_scan, FindTextureSlot_scan by done.
    eauto.
Qed.

(** C10: without a shader manager (the pointer is NULL) each of
    [SetTransformations], [SetShaderColor], [SetShaderTexture] and
    [SetTextureUVScale] returns without a fault, makes no call and
    leaves the world as it was, whatever its arguments. *)
Theorem null_shader_manager_no_effect w :
  m_pShaderManager (this w) = None ->
  (∀ scaleXYZ XrotationDegrees YrotationDegrees ZrotationDegrees positionXYZ,
     SetTransformations scaleXYZ XrotationDegrees YrotationDegrees
       ZrotationDegrees positionXYZ w = Ret tt w)
  ∧ (∀ redColorValue greenColorValue blueColorValue alphaValue,
       SetShaderColor redColorValue greenColorValue blueColorValue alphaValue w
       = Ret tt w)
  ∧ (∀ textureTag, SetShaderTexture textureTag w = Ret tt w)
  ∧ (∀ u v, SetTextureUVScale u v w = Ret tt w).
Proof.
  intros Hnull.
  unfold SetTransformations, SetShaderColor, SetShaderTexture,
    SetTextureUVScale, bind, get_this.
  rewrite Hnull. done.
Qed.

Lemma FindMaterial_gold (s : SceneManager) tr material :
  FindMaterial "gold" material
    {| this := set_objectMaterials s scene_materials; trace := tr |}
  = Ret (true, material)
      {| this := set_objectMaterials s scene_materials; trace := tr |}.
Proof. by rewrite FindMaterial_eq. Qed.

(** C1 does not hold of the code.  After the constructor and
    [DefineObjectMaterials], [FindMaterial] on "gold", a tag that none
    of the six materials has, returns true, not false; the output
    record is left as it was. *)
Theorem FindMaterial_true_on_absent_tag pShaderManager tr material :
  (DefineObjectMaterials ;;; FindMaterial "gold" material)
    {| this := SceneManager_new pShaderManager; trace := tr |}
  = Ret (true, material)
      {| this := set_objectMaterials (SceneManager_new pShaderManager) scene_materials;
         trace := tr |}.
Proof.
  unfold bind at 1. rewrite DefineObjectMaterials_eq.
  apply FindMaterial_gold.
Qed.

(** What the caller makes of it: [SetShaderMaterial] tests the
    returned [bool] and, for the tag that no material has, sends the
    fields of its local, which was never given a value. *)
Lemma SetShaderMaterial_absent_tag (s : SceneManager) p tr indeterminate :
  m_pShaderManager s = Some p ->
  ∃ w',
    SetShaderMaterial indeterminate "gold"
      {| this := set_objectMaterials s scene_materials; trace := tr |}
    = Ret tt w'
    ∧ trace w'
      = tr ++
        [setVec3Value p "material.ambientColor"
           (OBJECT_MATERIAL.ambientColor indeterminate);
         setFloatValue p "material.ambientStrength"
           (OBJECT_MATERIAL.ambientStrength indeterminate);
         setVec3Value p "material.diffuseColor"
           (OBJECT_MATERIAL.diffuseColor indeterminate);
         setVec3Value p "material.specularColor"
           (OBJECT_MATERIAL.specularColor indeterminate);
         setFloatValue p "material.shininess"
           (OBJECT_MATERIAL.shininess indeterminate)].
Proof.
  intros Hp. unfold SetShaderMaterial, bind at 1, get_this at 1.
  simpl. unfold bind at 1. rewrite FindMaterial_gold.
  simpl. rewrite Hp. eexists. split; [reflexivity|].
  simpl. by rewrite <- !(assoc_L (++)).
Qed.

End Claims.

(** ** The properties at work on the scene *)

Section Scene.
#[local] Existing Instance sym_glm.
#[local] Existing Instance demo_platform.

Lemma inserted_replayed calls w l :
  replay calls demo_new [] = Some (w, l) -> inserted w l.
Proof. apply replay_inserted, inserted_new. Qed.

Lemma FindMaterial_nonempty_returns_true_witness :
  m_objectMaterials (this demo_materials) ≠ []
  ∧ ∃ out,
      FindMaterial "cheese" silver demo_materials = Ret (true, out) demo_materials
      ∧ ((∀ m, m ∈ m_objectMaterials (this demo_materials) ->
               OBJECT_MATERIAL.tag m ≠ "cheese") ->
         out = silver)
      ∧ (∀ i m,
           m_objectMaterials (this demo_materials) !! i = Some m ->
           OBJECT_MATERIAL.tag m = "cheese" ->
           (∀ j m', j < i -> m_objectMaterials (this demo_materials) !! j = Some m' ->
                    OBJECT_MATERIAL.tag m' ≠ "cheese") ->
           out = copy_material m silver).
Proof.
  assert (m_objectMaterials (this demo_materials) ≠ []) as Hne by (simpl; discriminate).
  split; [exact Hne|].
  exact (FindMaterial_nonempty_returns_true "cheese" silver demo_materials Hne).
Defined.

Lemma FindTextureID_after_CreateGLTexture_witness :
  let l := [entry "background" 1; entry "pot" 2; entry "gold" 3;
            entry "rustic" 4; entry "melon" 5; entry "leaf" 6;
            entry "knife" 7] in
  inserted demo_scene l
  ∧ NoDup (TEXTURE_INFO.tag <$> l)
  ∧ (∀ e, e ∈ l ->
       FindTextureID (TEXTURE_INFO.tag e) demo_scene
       = Ret (TEXTURE_INFO.ID e) demo_scene)
  ∧ (∀ tag, tag ∉ (TEXTURE_INFO.tag <$> l) ->
       FindTextureID tag demo_scene = Ret (-1)%Z demo_scene).
Proof.
  intros l.
  assert (inserted demo_scene l) as Hins
    by (apply (inserted_replayed scene_textures); vm_compute; reflexivity).
  assert (NoDup (TEXTURE_INFO.tag <$> l)) as Hdup
    by (apply (bool_decide_unpack _); vm_compute; exact I).
  split; [exact Hins|]. split; [exact Hdup|].
  exact (FindTextureID_after_CreateGLTexture demo_scene l Hins Hdup).
Defined.

Lemma FindTexture_first_match_wins_witness :
  let l := [entry "pot" 1; entry "pot" 3] in
  inserted demo_twice l
  ∧ FindTextureID "pot" demo_twice = Ret 1%Z demo_twice
  ∧ FindTextureSlot "pot" demo_twice = Ret 0%Z demo_twice
  ∧ FindTextureID "gray" demo_twice = Ret (-1)%Z demo_twice
  ∧ FindTextureSlot "gray" demo_twice = Ret (-1)%Z demo_twice.
Proof.
  intros l.
  assert (inserted demo_twice l) as Hins.
  { apply (inserted_replayed
             [("PotGold.jpg", "pot"); ("gray.png", "gray");
              ("missing.jpg", "pot"); ("melon.bmp", "pot")]).
    vm_compute; reflexivity. }
  split; [exact Hins|].
  destruct (FindTexture_first_match_wins demo_twice l "pot" Hins) as [Hhit _].
  destruct (FindTexture_first_match_wins demo_twice l "gray" Hins) as [_ Hmiss].
  destruct (Hhit 0 (entry "pot" 1)) as [HID Hslot];
    [reflexivity | reflexivity | intros j e' Hj; lia |].
  destruct Hmiss as [HID' Hslot'].
  { intros e He. apply (bool_decide_unpack _).
    revert e He. apply Forall_forall. apply (bool_decide_unpack _).
    vm_compute. exact I. }
  auto.
Defined.

(** C5 as it is written fails twice.  A load that fails under a tag
    that an earlier load registered leaves the earlier entry in place:
    the lookup of the tag gives its handle, not -1.  And with sixteen
    textures loaded, a file that decodes well does not get an entry
    appended to the table: the assignment goes to index 16, past the
    table. *)
Lemma CreateGLTexture_outcome_counterexample :
  inserted demo_pot [entry "pot" 1]
  ∧ decoded demo_pot "missing.jpg" = None
  ∧ (∃ w',
       CreateGLTexture "missing.jpg" "pot" demo_pot = Ret false w'
       ∧ FindTextureID "pot" w' = Ret 1%Z w'
       ∧ 1%Z ≠ (-1)%Z)
  ∧ decoded demo_full "melon.bmp" = Some (picture 3)
  ∧ supported (picture 3)
  ∧ m_loadedTextures (this demo_full) = 16
  ∧ CreateGLTexture "melon.bmp" "extra" demo_full = Fault (OutOfBounds 16).
Proof.
  split.
  { apply (inserted_replayed [("PotGold.jpg", "pot")]). vm_compute; reflexivity. }
  split; [vm_compute; reflexivity|].
  split.
  { eexists. split; [vm_compute; reflexivity|].
    split; [vm_compute; reflexivity|done]. }
  split; [vm_compute; reflexivity|].
  split; [by left|].
  split; vm_compute; reflexivity.
Qed.

Lemma CreateGLTexture_outcome_witness :
  length (m_textureIDs (this demo_scene)) = TEXTURE_CAPACITY
  ∧ m_loadedTextures (this demo_scene) <= TEXTURE_CAPACITY
  ∧ (∃ w' before,
       CreateGLTexture "missing.jpg" "knife" demo_scene = Ret false w'
       ∧ m_textureIDs (this w') = m_textureIDs (this demo_scene)
       ∧ m_loadedTextures (this w') = m_loadedTextures (this demo_scene)
       ∧ FindTextureID "knife" demo_scene = Ret before demo_scene
       ∧ FindTextureID "knife" w' = Ret before w'
       ∧ ((∀ e, e ∈ loaded demo_scene -> TEXTURE_INFO.tag e ≠ "knife") ->
          before = (-1)%Z))
  ∧ (∃ w', CreateGLTexture "melon.bmp" "fruit" demo_scene = Ret true w').
Proof.
  assert (length (m_textureIDs (this demo_scene)) = TEXTURE_CAPACITY) as Hlen
    by (vm_compute; reflexivity).
  assert (m_loadedTextures (this demo_scene) <= TEXTURE_CAPACITY) as Hcap
    by (vm_compute; lia).
  split; [exact Hlen|]. split; [exact Hcap|].
  destruct (CreateGLTexture_outcome "missing.jpg" "knife" demo_scene Hlen Hcap)
    as [Hfail _].
  destruct (CreateGLTexture_outcome "melon.bmp" "fruit" demo_scene Hlen Hcap)
    as [_ Hok].
  split.
  - apply Hfail. left. vm_compute; reflexivity.
  - destruct Hok as [_ Hiff]; [vm_compute; lia|].
    apply Hiff. exists (picture 3). split; [vm_compute; reflexivity|by left].
Defined.

Lemma CreateGLTexture_past_capacity_witness :
  let l := [entry "background" 1; entry "pot" 2; entry "gold" 3;
            entry "rustic" 4; entry "melon" 5; entry "leaf" 6;
            entry "knife" 7; entry "background" 8; entry "pot" 9;
            entry "gold" 10; entry "rustic" 11; entry "melon" 12;
            entry "leaf" 13; entry "knife" 14; entry "m15" 15;
            entry "l16" 16] in
  inserted demo_full l
  ∧ length l = 16
  ∧ decoded demo_full "melon.bmp" = Some (picture 3)
  ∧ supported (picture 3)
  ∧ CreateGLTexture "melon.bmp" "extra" demo_full = Fault (OutOfBounds 16).
Proof.
  intros l.
  assert (inserted demo_full l) as Hins
    by (apply (inserted_replayed sixteen_textures); vm_compute; reflexivity).
  assert (decoded demo_full "melon.bmp" = Some (picture 3)) as Hdec
    by (vm_compute; reflexivity).
  assert (supported (picture 3)) as Hch by (left; reflexivity).
  split; [exact Hins|]. split; [reflexivity|].
  split; [exact Hdec|]. split; [exact Hch|].
  destruct (CreateGLTexture_past_capacity demo_full l Hins) as (_ & _ & Hpast).
  exact (Hpast eq_refl "melon.bmp" "extra" (picture 3) Hdec Hch).
Defined.

Lemma SetTransformations_model_matrix_witness :
  m_pShaderManager (this demo_new) = Some 1%positive
  ∧ SetTransformations
      (vec3_lit "2.5f" "2.5f" "10.0f")
      (float_lit "90.0f") (float_lit "0.0f") (float_lit "0.0f")
      (vec3_lit "4.0f" "3.0f" "0.0f") demo_new
    = Ret tt
        {| this := this demo_new;
           trace :=
             [setMat4Value 1%positive "model"
                (MMul
                   (MMul
                      (MMul
                         (MMul
                            (MTranslate (Vec3 (FLit "4.0f") (FLit "3.0f") (FLit "0.0f")))
                            (MRotate (FRadians (FLit "90.0f"))
                               (Vec3 (FLit "1.0f") (FLit "0.0f") (FLit "0.0f"))))
                         (MRotate (FRadians (FLit "0.0f"))
                            (Vec3 (FLit "0.0f") (FLit "1.0f") (FLit "0.0f"))))
                      (MRotate (FRadians (FLit "0.0f"))
                         (Vec3 (FLit "0.0f") (FLit "0.0f") (FLit "1.0f"))))
                   (MScale (Vec3 (FLit "2.5f") (FLit "2.5f") (FLit "10.0f"))))] |}.
Proof.
  assert (m_pShaderManager (this demo_new) = Some 1%positive) as Hp by reflexivity.
  split; [exact Hp|].
  exact (SetTransformations_model_matrix
           (vec3_lit "2.5f" "2.5f" "10.0f")
           (float_lit "90.0f") (float_lit "0.0f") (float_lit "0.0f")
           (vec3_lit "4.0f" "3.0f" "0.0f") 1%positive demo_new Hp).
Defined.

Lemma DefineObjectMaterials_six_witness :
  m_objectMaterials (this demo_new) = []
  ∧ ∃ w',
      DefineObjectMaterials demo_new = Ret tt w'
      ∧ OBJECT_MATERIAL.tag <$> m_objectMaterials (this w')
        = ["silver"; "metal"; "blackmetal"; "bluewood"; "cheese"; "turqoise"].
Proof.
  assert (m_objectMaterials (this demo_new) = []) as Hempty by reflexivity.
  split; [exact Hempty|].
  destruct (DefineObjectMaterials_six demo_new Hempty)
    as (w' & Hrun & _ & _ & Htags & _).
  exists w'. split; [exact Hrun|exact Htags].
Defined.

Lemma lookups_leave_the_world_witness :
  m_loadedTextures (this demo_scene) <= length (m_textureIDs (this demo_scene))
  ∧ ∃ textureID textureSlot,
      FindTextureID "melon" demo_scene = Ret textureID demo_scene
      ∧ FindTextureSlot "melon" demo_scene = Ret textureSlot demo_scene.
Proof.
  assert (m_loadedTextures (this demo_scene) <= length (m_textureIDs (this demo_scene)))
    as Hcap by (vm_compute; lia).
  split; [exact Hcap|].
  destruct (lookups_leave_the_world "melon" silver demo_scene) as (_ & _ & _ & Hret).
  exact (Hret Hcap).
Defined.

Lemma null_shader_manager_no_effect_witness :
  m_pShaderManager (this demo_null) = None
  ∧ SetTransformations
      (vec3_lit "2.5f" "2.5f" "10.0f")
      (float_lit "90.0f") (float_lit "0.0f") (float_lit "0.0f")
      (vec3_lit "4.0f" "3.0f" "0.0f") demo_null = Ret tt demo_null
  ∧ SetShaderColor (float_lit "1") (float_lit "1") (float_lit "1") (float_lit "1")
      demo_null = Ret tt demo_null
  ∧ SetShaderTexture "pot" demo_null = Ret tt demo_null
  ∧ SetTextureUVScale (float_lit "2.5") (float_lit "2.5") demo_null
    = Ret tt demo_null.
Proof.
  assert (m_pShaderManager (this demo_null) = None) as Hnull by reflexivity.
  split; [exact Hnull|].
  destruct (null_shader_manager_no_effect demo_null Hnull)
    as (Htransform & Hcolor & Htexture & Huv).
  split; [apply Htransform|]. split; [apply Hcolor|].
  split; [apply Htexture|apply Huv].
Defined.

End Scene.

(** ** More on the texture table *)

Section Table.
Context `{Glm} `{!Platform}.
Implicit Types (w : World) (tag filename : string) (l : list TEXTURE_INFO.t).

(** Either no entry has the tag, or there is a first one. *)
Lemma scan_cases tag l :
  (∀ e, e ∈ l -> TEXTURE_INFO.tag e ≠ tag)
  ∨ ∃ i e, l !! i = Some e ∧ TEXTURE_INFO.tag e = tag
           ∧ ∀ j e', j < i -> l !! j = Some e' -> TEXTURE_INFO.tag e' ≠ tag.
Proof.
  induction l as [|e0 l IH].
  - left. intros e He. by apply elem_of_nil in He.
  - destruct (decide (TEXTURE_INFO.tag e0 = tag)) as [Heq|Hne].
    + right. exists 0, e0. repeat split; [done|]. intros j e' Hj. lia.
    + destruct IH as [Hmiss | (i & e & Hi & Htag & Hbefore)].
      * left. intros e [->|He]%elem_of_cons; auto.
      * right. exists (S i), e. repeat split; [done|done|].
        intros [|j] e' Hj He'; simpl in He'.
        -- by injection He' as <-.
        -- apply (Hbefore j e'); [lia|done].
Qed.

Lemma first_match_app tag l l2 i e :
  l !! i = Some e ->
  (∀ j e', j < i -> l !! j = Some e' -> TEXTURE_INFO.tag e' ≠ tag) ->
  (l ++ l2) !! i = Some e
  ∧ ∀ j e', j < i -> (l ++ l2) !! j = Some e' -> TEXTURE_INFO.tag e' ≠ tag.
Proof.
  intros Hi Hbefore.
  pose proof (lookup_lt_Some _ _ _ Hi) as Hlt.
  split; [by rewrite lookup_app_l|].
  intros j e' Hj He'. rewrite lookup_app_l in He' by lia. eauto.
Qed.

Lemma inserted_at_most_16 w l : inserted w l -> length l <= 16.
Proof.
  intros Hins.
  pose proof (inserted_capacity w l Hins) as Hcap.
  destruct (inserted_table w l Hins) as (Hlen & Hn & _).
  change TEXTURE_CAPACITY with 16 in Hlen. lia.
Qed.

(** X1: the table of a scene manager is, at any time, the entries
    inserted so far, in the order of insertion, followed by entries that
    are as the constructor left them (tag "/0", handle -1); the count is
    the number of insertions, and there are never more than 16. *)
Theorem inserted_table_layout w l :
  inserted w l ->
  m_textureIDs (this w)
  = l ++ replicate (16 - length l) (TEXTURE_INFO.Build "/0" (-1))
  ∧ m_loadedTextures (this w) = length l
  ∧ length l <= 16.
Proof.
  intros Hins.
  pose proof (inserted_capacity w l Hins) as Hcap.
  destruct (inserted_table w l Hins) as (Hlen & Hn & _).
  change TEXTURE_CAPACITY with 16 in Hlen.
  split; [|split; [done|lia]].
  clear Hcap Hlen Hn.
  induction Hins as [p tr | w l filename tag w' textureID Hins IH Hrun Hlast
                    | w l filename tag w' Hins IH Hrun
                    | w l w' Hins IH Htbl Hn].
  - reflexivity.
  - destruct (inserted_table w l Hins) as (_ & Hn & _).
    apply CreateGLTexture_true_inv in Hrun as (Hlt & h & Hlast' & Hw').
    assert (h = textureID) as -> by congruence.
    rewrite Hw'. unfold registered. simpl.
    rewrite IH in Hlt |- *. rewrite Hn.
    rewrite length_app, length_replicate in Hlt.
    rewrite insert_app_r_alt, Nat.sub_diag by lia.
    rewrite length_app. simpl.
    replace (16 - length l) with (S (16 - (length l + 1))) by lia.
    simpl. by rewrite <- (assoc_L (++)).
  - apply CreateGLTexture_false_inv in Hrun. by rewrite Hrun.
  - by rewrite Htbl.
Qed.

Lemma scan_ID_app_hit tag miss l l2 :
  (∃ e, e ∈ l ∧ TEXTURE_INFO.tag e = tag) ->
  scan_ID tag miss (l ++ l2) = scan_ID tag miss l.
Proof.
  intros (e & He & Htag).
  destruct (scan_cases tag l) as [Hmiss | (i & e1 & Hi & Htag1 & Hbefore)].
  - by destruct (Hmiss e He).
  - destruct (first_match_app tag l l2 i e1 Hi Hbefore) as [Hi' Hbefore'].
    by rewrite (scan_ID_first tag miss _ i e1 Hi' Htag1 Hbefore'),
               (scan_ID_first tag miss _ i e1 Hi Htag1 Hbefore).
Qed.

Lemma scan_slot_app_hit tag miss l l2 :
  (∃ e, e ∈ l ∧ TEXTURE_INFO.tag e = tag) ->
  scan_slot tag miss 0 (l ++ l2) = scan_slot tag miss 0 l
  ∧ (0 <= scan_slot tag miss 0 l < Z.of_nat (length l))%Z.
Proof.
  intros (e & He & Htag).
  destruct (scan_cases tag l) as [Hmiss | (i & e1 & Hi & Htag1 & Hbefore)].
  - by destruct (Hmiss e He).
  - destruct (first_match_app tag l l2 i e1 Hi Hbefore) as [Hi' Hbefore'].
    rewrite (scan_slot_first tag miss 0 _ i e1 Hi' Htag1 Hbefore'),
            (scan_slot_first tag miss 0 _ i e1 Hi Htag1 Hbefore).
    apply lookup_lt_Some in Hi. split; [done|lia].
Qed.

(** X2: a texture that is registered keeps its handle and its slot.
    Whatever a later call of [CreateGLTexture] does (fail, register
    another tag, or register the same tag once more), the two lookups
    of a tag inserted before the call give after it what they gave
    before, and the slot is between 0 and 15. *)
Theorem CreateGLTexture_keeps_registered w l filename tag result w' e :
  inserted w l ->
  CreateGLTexture filename tag w = Ret result w' ->
  e ∈ l ->
  ∃ textureID textureSlot,
    FindTextureID (TEXTURE_INFO.tag e) w = Ret textureID w
    ∧ FindTextureID (TEXTURE_INFO.tag e) w' = Ret textureID w'
    ∧ FindTextureSlot (TEXTURE_INFO.tag e) w = Ret textureSlot w
    ∧ FindTextureSlot (TEXTURE_INFO.tag e) w' = Ret textureSlot w'
    ∧ (0 <= textureSlot < 16)%Z.
Proof.
  intros Hins Hrun He.
  assert (∃ l2, inserted w' (l ++ l2)) as [l2 Hins'].
  { destruct result.
    - pose proof Hrun as Hinv.
      apply CreateGLTexture_true_inv in Hinv as (_ & h & Hlast & _).
      eexists. by eapply inserted_loaded.
    - exists []. rewrite app_nil_r. by eapply inserted_failed. }
  pose proof (inserted_capacity _ _ Hins) as Hcap.
  pose proof (inserted_capacity _ _ Hins') as Hcap'.
  destruct (inserted_table _ _ Hins) as (_ & _ & Hl).
  destruct (inserted_table _ _ Hins') as (_ & _ & Hl').
  pose proof (inserted_at_most_16 _ _ Hins) as Hle.
  rewrite !FindTextureID_scan, !FindTextureSlot_scan, Hl, Hl' by done.
  assert (∃ e0, e0 ∈ l ∧ TEXTURE_INFO.tag e0 = TEXTURE_INFO.tag e) as Hhit by eauto.
  destruct (scan_slot_app_hit (TEXTURE_INFO.tag e) (-1) l l2 Hhit) as [Hslot Hrange].
  rewrite (scan_ID_app_hit _ _ l l2 Hhit), Hslot.
  eexists _, _. repeat split; [lia|lia].
Qed.

Lemma FindTextureSlot_cases w tag :
  m_loadedTextures (this w) <= length (m_textureIDs (this w)) ->
  ∃ textureSlot,
    FindTextureSlot tag w = Ret textureSlot w
    ∧ ((textureSlot = (-1)%Z
        ∧ (∀ e, e ∈ loaded w -> TEXTURE_INFO.tag e ≠ tag)
        ∧ FindTextureID tag w = Ret (-1)%Z w)
       ∨ ∃ i e,
           textureSlot = Z.of_nat i
           ∧ i < m_loadedTextures (this w)
           ∧ m_textureIDs (this w) !! i = Some e
           ∧ TEXTURE_INFO.tag e = tag
           ∧ FindTextureID tag w = Ret (TEXTURE_INFO.ID e) w).
Proof.
  intros Hcap. rewrite FindTextureSlot_scan, FindTextureID_scan by done.
  eexists. split; [reflexivity|].
  destruct (scan_cases tag (loaded w)) as [Hmiss | (i & e & Hi & Htag & Hbefore)].
  - left. by rewrite scan_slot_miss, scan_ID_miss.
  - right. exists i, e.
    rewrite (scan_slot_first tag _ 0 _ i e Hi Htag Hbefore),
            (scan_ID_first tag _ _ i e Hi Htag Hbefore).
    unfold loaded in Hi. apply lookup_take_Some in Hi as [Hi Hlt].
    done.
Qed.

(** X3: what [FindTextureSlot] returns is either -1, and then no entry
    in use has the tag and [FindTextureID] returns -1 too, or the index
    of an entry in use that has the tag, and then [FindTextureID]
    returns the handle of that very entry. *)
Theorem FindTextureSlot_agrees_with_FindTextureID w tag :
  m_loadedTextures (this w) <= length (m_textureIDs (this w)) ->
  ∃ textureSlot,
    FindTextureSlot tag w = Ret textureSlot w
    ∧ ((textureSlot = (-1)%Z
        ∧ (∀ e, e ∈ loaded w -> TEXTURE_INFO.tag e ≠ tag)
        ∧ FindTextureID tag w = Ret (-1)%Z w)
       ∨ ∃ i e,
           textureSlot = Z.of_nat i
           ∧ i < m_loadedTextures (this w)
           ∧ m_textureIDs (this w) !! i = Some e
           ∧ TEXTURE_INFO.tag e = tag
           ∧ FindTextureID tag w = Ret (TEXTURE_INFO.ID e) w).
Proof. apply FindTextureSlot_cases. Qed.

End Table.

(** ** More on loading and on the setters *)

Section Setters.
Context `{Glm} `{!Platform}.
Implicit Types (w : World) (tag filename : string)
  (material : OBJECT_MATERIAL.t) (l : list TEXTURE_INFO.t).

Ltac run_CreateGLTexture :=
  unfold CreateGLTexture, call_stbi_load, call_glGenTextures,
    store_ID, store_tag;
  unfold bind, emit, get_trace, get_this, put_this, ret, fail; simpl.

(** X4: what becomes of a picture that was decoded.  With 3 or 4
    channels (and room in the table) the call generates one texture
    name, frees the image and leaves no texture bound.  With another
    channel count the call returns false and changes no member, but it
    has generated a texture name all the same, which is then recorded
    nowhere, it leaves that texture bound, and it does not free the
    image. *)
Theorem CreateGLTexture_decoded_resources filename tag w image :
  decoded w filename = Some image ->
  (supported image ->
   m_loadedTextures (this w) < length (m_textureIDs (this w)) ->
   ∃ new textureID,
     CreateGLTexture filename tag w
     = Ret true {| this := registered (this w) tag textureID;
                   trace := trace w ++ new |}
     ∧ generated new = [textureID]
     ∧ bound_texture new = Some 0%Z
     ∧ freed new = [image])
  ∧ (¬ supported image ->
     ∃ new name,
       CreateGLTexture filename tag w
       = Ret false {| this := this w; trace := trace w ++ new |}
       ∧ generated new = [name]
       ∧ bound_texture new = Some name
       ∧ freed new = []).
Proof.
  unfold decoded, supported. intros Hdec. split.
  - intros Hch Hlt.
    destruct (lookup_lt_is_Some_2 _ _ Hlt) as [e He].
    run_CreateGLTexture. rewrite Hdec.
    destruct Hch as [-> | ->]; simpl;
      rewrite He; simpl;
      rewrite list_lookup_insert_eq by done; simpl;
      rewrite list_insert_insert_eq;
      rewrite <- !(assoc_L (++)); simpl;
      eexists _, _; (split; [reflexivity|]); done.
  - intros Hch. run_CreateGLTexture. rewrite Hdec.
    destruct (Z.eqb_spec (colorChannels image) 3); [tauto|].
    destruct (Z.eqb_spec (colorChannels image) 4); [tauto|].
    simpl. rewrite <- !(assoc_L (++)); simpl.
    eexists _, _; (split; [reflexivity|]); done.
Qed.

(** X5: with a shader manager, [SetShaderTexture] switches texturing
    on and hands the sampler what [FindTextureSlot] returns for the
    tag, changing no member.  For a tag that was never inserted that is
    -1: texturing is switched on all the same and the sampler is set to
    -1. *)
Theorem SetShaderTexture_sends_slot w l p textureTag :
  inserted w l ->
  m_pShaderManager (this w) = Some p ->
  ∃ textureSlot,
    FindTextureSlot textureTag w = Ret textureSlot w
    ∧ SetShaderTexture textureTag w
      = Ret tt {| this := this w;
                  trace := trace w ++
                    [setIntValue p "bUseTexture" 1;
                     setSampler2DValue p "objectTexture" textureSlot] |}
    ∧ (-1 <= textureSlot < 16)%Z
    ∧ ((∀ e, e ∈ l -> TEXTURE_INFO.tag e ≠ textureTag) -> textureSlot = (-1)%Z).
Proof.
  intros Hins Hp.
  pose proof (inserted_capacity _ _ Hins) as Hcap.
  destruct (inserted_table _ _ Hins) as (_ & _ & Hl).
  pose proof (inserted_at_most_16 _ _ Hins) as Hle.
  exists (scan_slot textureTag (-1) 0 l).
  split; [by rewrite FindTextureSlot_scan, Hl|].
  split.
  - unfold SetShaderTexture, bind at 1, get_this at 1. rewrite Hp.
    unfold bind at 1, emit at 1. unfold bind at 1.
    rewrite FindTextureSlot_scan by done.
    unfold loaded. simpl. fold (loaded w). rewrite Hl.
    unfold emit. simpl. by rewrite <- (assoc_L (++)).
  - split.
    + destruct (scan_cases textureTag l) as [Hmiss | (i & e & Hi & Htag & Hbefore)].
      * rewrite scan_slot_miss by done. lia.
      * rewrite (scan_slot_first textureTag _ 0 _ i e Hi Htag Hbefore).
        apply lookup_lt_Some in Hi. lia.
    + apply scan_slot_miss.
Qed.

Lemma SetShaderMaterial_eq indeterminate materialTag w :
  SetShaderMaterial indeterminate materialTag w
  = match m_objectMaterials (this w) with
    | [] => Ret tt w
    | _ :: _ =>
      match m_pShaderManager (this w) with
      | None => Fault NullPointer
      | Some p =>
        Ret tt
          {| this := this w;
             trace := trace w ++
               material_calls p
                 match first_material materialTag (m_objectMaterials (this w)) with
                 | Some m => copy_material m indeterminate
                 | None => indeterminate
                 end |}
      end
    end.
Proof.
  unfold SetShaderMaterial, bind at 1, get_this at 1.
  destruct (m_objectMaterials (this w)) as [|m0 mats] eqn:Hl; [done|].
  rewrite bool_decide_eq_true_2 by (simpl; lia).
  unfold bind at 1. rewrite FindMaterial_eq, Hl. simpl.
  destruct (m_pShaderManager (this w)) as [p|]; [|done].
  unfold bind, emit. simpl. by rewrite <- !(assoc_L (++)).
Qed.

(** X6: [SetShaderMaterial] does not test the pointer to the shader
    manager.  With materials defined and the pointer NULL it goes
    through the NULL pointer, whatever the tag; only when no material
    is defined does it return, and then without a call, pointer or no
    pointer. *)
Theorem SetShaderMaterial_null_pointer indeterminate materialTag w :
  (m_objectMaterials (this w) = [] ->
   SetShaderMaterial indeterminate materialTag w = Ret tt w)
  ∧ (m_objectMaterials (this w) ≠ [] ->
     m_pShaderManager (this w) = None ->
     SetShaderMaterial indeterminate materialTag w = Fault NullPointer).
Proof.
  rewrite SetShaderMaterial_eq. split.
  - by intros ->.
  - intros Hne ->. by destruct (m_objectMaterials (this w)).
Qed.

(** X7: with a shader manager and materials defined,
    [SetShaderMaterial] makes five calls and changes no member.  When a
    material has the tag, the values sent are the colours, the ambient
    strength and the shininess of the first such material, whatever
    the local record held.  When no material has the tag, five calls
    are made all the same, and the values sent are those of the local
    record, which has not been given any. *)
Theorem SetShaderMaterial_sends indeterminate materialTag w p :
  m_objectMaterials (this w) ≠ [] ->
  m_pShaderManager (this w) = Some p ->
  ∃ sent,
    SetShaderMaterial indeterminate materialTag w
    = Ret tt {| this := this w; trace := trace w ++ material_calls p sent |}
    ∧ (∀ i m,
         m_objectMaterials (this w) !! i = Some m ->
         OBJECT_MATERIAL.tag m = materialTag ->
         (∀ j m', j < i -> m_objectMaterials (this w) !! j = Some m' ->
                  OBJECT_MATERIAL.tag m' ≠ materialTag) ->
         material_calls p sent = material_calls p m)
    ∧ ((∀ m, m ∈ m_objectMaterials (this w) ->
             OBJECT_MATERIAL.tag m ≠ materialTag) ->
       sent = indeterminate).
Proof.
  intros Hne Hp. rewrite SetShaderMaterial_eq, Hp.
  destruct (m_objectMaterials (this w)) as [|m0 mats] eqn:Hl; [done|].
  eexists. split; [reflexivity|]. split.
  - intros i m Hi Htag Hbefore.
    by rewrite (first_material_first materialTag (m0 :: mats) i m).
  - intros Hmiss. apply first_material_None in Hmiss. by rewrite Hmiss.
Qed.

(** X8: when no two materials of the list share a tag, [FindMaterial]
    on the tag of any material of the list returns true and puts the
    colours, the ambient strength and the shininess of that material
    into the output record; the tag of the output record is not
    assigned. *)
Theorem FindMaterial_finds_each w material m :
  NoDup (OBJECT_MATERIAL.tag <$> m_objectMaterials (this w)) ->
  m ∈ m_objectMaterials (this w) ->
  FindMaterial (OBJECT_MATERIAL.tag m) material w
  = Ret (true, copy_material m material) w
  ∧ OBJECT_MATERIAL.tag (copy_material m material) = OBJECT_MATERIAL.tag material.
Proof.
  intros Hdup [i Hi]%list_elem_of_lookup. split; [|done].
  rewrite FindMaterial_eq.
  destruct (m_objectMaterials (this w)) as [|m0 mats] eqn:Hl; [done|].
  rewrite (first_material_first _ (m0 :: mats) i m); [done|done|done|].
  intros j m' Hj Hm' Heq.
  assert (j = i) as -> by
    (apply (NoDup_lookup _ j i (OBJECT_MATERIAL.tag m) Hdup);
       rewrite list_lookup_fmap; [rewrite Hm', <- Heq|rewrite Hi]; done).
  lia.
Qed.

Lemma first_material_app_hit tag (mats more : list OBJECT_MATERIAL.t) m :
  first_material tag mats = Some m -> first_material tag (mats ++ more) = Some m.
Proof.
  unfold first_material. induction mats as [|m0 mats IH]; simpl; [done|].
  by destruct (String.eqb (OBJECT_MATERIAL.tag m0) tag).
Qed.

(** X9: [DefineObjectMaterials] only appends.  On a list that already
    holds materials it puts its six behind them, and a tag that a
    material of the list had before the call is answered by
    [FindMaterial] after the call from the same material as before:
    called twice, the method leaves twelve materials and lookups that
    answer as after the first call. *)
Theorem DefineObjectMaterials_keeps_earlier w tag material m :
  first_material tag (m_objectMaterials (this w)) = Some m ->
  ∃ w',
    DefineObjectMaterials w = Ret tt w'
    ∧ m_objectMaterials (this w') = m_objectMaterials (this w) ++ scene_materials
    ∧ length (m_objectMaterials (this w')) = length (m_objectMaterials (this w)) + 6
    ∧ FindMaterial tag material w = Ret (true, copy_material m material) w
    ∧ FindMaterial tag material w' = Ret (true, copy_material m material) w'.
Proof.
  intros Hfirst. rewrite DefineObjectMaterials_eq.
  eexists. split; [reflexivity|]. simpl.
  split; [done|]. split; [by rewrite length_app|].
  rewrite !FindMaterial_eq. simpl.
  rewrite (first_material_app_hit _ _ _ _ Hfirst), Hfirst.
  destruct (m_objectMaterials (this w)) as [|m0 mats]; done.
Qed.

End Setters.

(** ** DestroyGLTextures *)

Section Destroy.
Context `{Glm} `{!Platform}.
Implicit Types (w : World) (tag : string) (l : list TEXTURE_INFO.t).

Lemma DestroyGLTextures_for_step fuel i w :
  i < m_loadedTextures (this w) ->
  DestroyGLTextures_for (S fuel) i w
  = match m_textureIDs (this w) !! i with
    | Some e =>
      DestroyGLTextures_for fuel (i + 1)
        {| this := set_textureIDs (this w)
                     (<[i := TEXTURE_INFO.Build (TEXTURE_INFO.tag e)
                                (glGenTextures_result (trace w))]>
                        (m_textureIDs (this w)));
           trace := trace w ++ [glGenTextures 1 (glGenTextures_result (trace w))] |}
    | None => Fault (OutOfBounds i)
    end.
Proof.
  intros Hlt. simpl. unfold bind at 1, get_this at 1.
  rewrite bool_decide_eq_true_2 by done.
  unfold call_glGenTextures, store_ID.
  unfold bind, get_trace, get_this, emit, put_this, ret, fail. simpl.
  by destruct (m_textureIDs (this w) !! i).
Qed.

Lemma DestroyGLTextures_for_end fuel i w :
  ¬ i < m_loadedTextures (this w) ->
  DestroyGLTextures_for fuel i w = Ret tt w.
Proof.
  intros Hge. destruct fuel; simpl; unfold bind, get_this;
    by rewrite bool_decide_eq_false_2.
Qed.

Lemma DestroyGLTextures_for_spec fuel i w :
  m_loadedTextures (this w) <= length (m_textureIDs (this w)) ->
  m_loadedTextures (this w) - i <= fuel ->
  ∃ names w',
    DestroyGLTextures_for fuel i w = Ret tt w'
    ∧ length names = m_loadedTextures (this w) - i
    ∧ trace w' = trace w ++ (glGenTextures 1 <$> names)
    ∧ m_loadedTextures (this w') = m_loadedTextures (this w)
    ∧ m_pShaderManager (this w') = m_pShaderManager (this w)
    ∧ m_objectMaterials (this w') = m_objectMaterials (this w)
    ∧ length (m_textureIDs (this w')) = length (m_textureIDs (this w))
    ∧ (∀ j, j < i ∨ m_loadedTextures (this w) <= j ->
            m_textureIDs (this w') !! j = m_textureIDs (this w) !! j)
    ∧ (∀ j e, i <= j < m_loadedTextures (this w) ->
              m_textureIDs (this w) !! j = Some e ->
              ∃ name, names !! (j - i) = Some name
                      ∧ m_textureIDs (this w') !! j
                        = Some (TEXTURE_INFO.Build (TEXTURE_INFO.tag e) name)).
Proof.
  revert i w. induction fuel as [|fuel IH]; intros i w Hcap Hfuel.
  - exists [], w. rewrite DestroyGLTextures_for_end by lia.
    rewrite app_nil_r. simpl.
    split; [done|]. split; [lia|]. do 6 (split; [done|]).
    intros j e Hj. lia.
  - destruct (decide (i < m_loadedTextures (this w))) as [Hlt|Hge].
    + rewrite DestroyGLTextures_for_step by done.
      destruct (lookup_lt_is_Some_2 (m_textureIDs (this w)) i) as [e He]; [lia|].
      rewrite He.
      set (name := glGenTextures_result (trace w)).
      set (w1 := {| this := _; trace := _ |}).
      destruct (IH (i + 1) w1) as
        (names & w' & Hrun & Hlen & Htr & Hn & Hp & Hmat & Htbl & Hout & Hin).
      { subst w1. simpl. by rewrite length_insert. }
      { subst w1. simpl. lia. }
      subst w1. simpl in *. rewrite length_insert in Htbl.
      exists (name :: names), w'. rewrite Hrun. simpl.
      split; [done|]. split; [lia|].
      split; [by rewrite Htr, <- (assoc_L (++))|].
      split; [done|]. split; [done|]. split; [done|]. split; [done|].
      split.
      * intros j Hj. rewrite Hout by lia.
        apply list_lookup_insert_ne. lia.
      * intros j e' Hj He'.
        destruct (decide (j = i)) as [->|Hne].
        -- exists name. rewrite Nat.sub_diag. split; [done|].
           rewrite Hout by lia. rewrite list_lookup_insert_eq by lia.
           congruence.
        -- destruct (Hin j e') as (k & Hk & Hj'); [lia| |].
           { by rewrite list_lookup_insert_ne by lia. }
           exists k. split; [|done].
           replace (j - i) with (S (j - (i + 1))) by lia. done.
    + exists [], w. rewrite DestroyGLTextures_for_end by done.
      rewrite app_nil_r. simpl.
      split; [done|]. split; [lia|]. do 6 (split; [done|]).
      intros j e Hj. lia.
Qed.

Lemma scan_slot_tags tag miss index l l' :
  TEXTURE_INFO.tag <$> l = TEXTURE_INFO.tag <$> l' ->
  scan_slot tag miss index l = scan_slot tag miss index l'.
Proof.
  revert index l'. induction l as [|e l IH]; intros index [|e' l'] Heq;
    simpl in *; try done.
  injection Heq as -> Heq. destruct (String.eqb _ _); [done|]. by apply IH.
Qed.



End Destroy.

(** ** Preparing the scene *)

Section Preparing.
Context `{Glm} `{!Platform}.
Implicit Types (sc : Scene) (w : World) (tag : string) (l : list TEXTURE_INFO.t).

Lemma BindGLTextures_for_step fuel i sc :
  i < m_loadedTextures (this (world sc)) ->
  BindGLTextures_for (S fuel) i sc
  = match m_textureIDs (this (world sc)) !! i with
    | Some e =>
      BindGLTextures_for fuel (i + 1)
        {| world :=
             {| this := this (world sc);
                trace := trace (world sc)
                         ++ [glBindTexture GL_TEXTURE_2D (TEXTURE_INFO.ID e)] |};
           outer := outer sc
                    ++ [(length (trace (world sc)),
                         glActiveTexture (GL_TEXTURE0 + Z.of_nat i))] |}
    | None => Stopped (OutOfBounds i)
    end.
Proof.
  intros Hlt. simpl. unfold andthen at 1, lift at 1, get_this at 1.
  rewrite bool_decide_eq_true_2 by done.
  unfold andthen at 1, call at 1. unfold andthen at 1, lift at 1.
  rewrite texture_at_eq. simpl.
  by destruct (m_textureIDs (this (world sc)) !! i).
Qed.

Lemma BindGLTextures_for_end fuel i sc :
  ¬ i < m_loadedTextures (this (world sc)) ->
  BindGLTextures_for fuel i sc = Done tt sc.
Proof.
  intros Hge. destruct sc as [w o]. simpl in Hge.
  destruct fuel; simpl; unfold andthen, lift, get_this; simpl;
    by rewrite bool_decide_eq_false_2.
Qed.

Lemma BindGLTextures_for_spec fuel i sc :
  m_loadedTextures (this (world sc)) <= length (m_textureIDs (this (world sc))) ->
  m_loadedTextures (this (world sc)) - i <= fuel ->
  ∃ sc',
    BindGLTextures_for fuel i sc = Done tt sc'
    ∧ this (world sc') = this (world sc)
    ∧ trace (world sc')
      = trace (world sc)
        ++ ((fun e => glBindTexture GL_TEXTURE_2D (TEXTURE_INFO.ID e))
              <$> drop i (loaded (world sc)))
    ∧ outer sc'
      = outer sc
        ++ activations (length (trace (world sc))) i
             (m_loadedTextures (this (world sc)) - i).
Proof.
  revert i sc. induction fuel as [|fuel IH]; intros i sc Hcap Hfuel.
  - exists sc. rewrite BindGLTextures_for_end by lia.
    rewrite drop_loaded_nil by lia.
    replace (m_loadedTextures (this (world sc)) - i) with 0 by lia.
    simpl. by rewrite !app_nil_r.
  - destruct (decide (i < m_loadedTextures (this (world sc)))) as [Hlt|Hge].
    + rewrite BindGLTextures_for_step by done.
      destruct (drop_loaded_cons (world sc) i Hcap Hlt) as (e & He & Hdrop).
      rewrite He, Hdrop.
      set (sc1 := {| world := _; outer := _ |}).
      destruct (IH (i + 1) sc1) as (sc' & Hrun & Hthis & Htr & Hout);
        [done|simpl; lia|].
      exists sc'. rewrite Hrun. subst sc1. simpl in *.
      split; [done|]. split; [done|]. split.
      * rewrite Htr, <- (assoc_L (++)). simpl. f_equal. f_equal.
        by rewrite Nat.add_1_r.
      * rewrite Hout, <- (assoc_L (++)). f_equal.
        replace (m_loadedTextures (this (world sc)) - i)
          with (S (m_loadedTextures (this (world sc)) - (i + 1))) by lia.
        simpl. rewrite length_app. simpl.
        f_equal. f_equal; [lia|]. f_equal. lia.
    + exists sc. rewrite BindGLTextures_for_end by done.
      rewrite drop_loaded_nil by done.
      replace (m_loadedTextures (this (world sc)) - i) with 0 by lia.
      simpl. by rewrite !app_nil_r.
Qed.

Lemma elem_of_activations stamp first count i :
  i < count ->
  (stamp + i, glActiveTexture (GL_TEXTURE0 + Z.of_nat (first + i)))
  ∈ activations stamp first count.
Proof.
  revert stamp first i. induction count as [|count IH]; intros stamp first i Hi; [lia|].
  simpl. destruct i as [|i].
  - rewrite !Nat.add_0_r. left.
  - right. replace (stamp + S i) with (S stamp + i) by lia.
    replace (first + S i) with (S first + i) by lia.
    apply IH. lia.
Qed.

(** X11: [BindGLTextures] makes, for each texture in use, a call of
    [glActiveTexture] on the unit of its index followed at once by the
    [glBindTexture] of its handle, and nothing else; it changes no
    member.  So a tag for which [FindTextureSlot] gives the slot [i]
    has, on texture unit GL_TEXTURE0 + i, the texture that
    [FindTextureID] gives for it. *)
Theorem BindGLTextures_units sc :
  m_loadedTextures (this (world sc)) <= length (m_textureIDs (this (world sc))) ->
  ∃ sc',
    BindGLTextures sc = Done tt sc'
    ∧ this (world sc') = this (world sc)
    ∧ trace (world sc')
      = trace (world sc)
        ++ ((fun e => glBindTexture GL_TEXTURE_2D (TEXTURE_INFO.ID e))
              <$> loaded (world sc))
    ∧ outer sc'
      = outer sc
        ++ activations (length (trace (world sc))) 0
             (m_loadedTextures (this (world sc)))
    ∧ (∀ tag i,
         FindTextureSlot tag (world sc) = Ret (Z.of_nat i) (world sc) ->
         ∃ textureID,
           FindTextureID tag (world sc) = Ret textureID (world sc)
           ∧ (length (trace (world sc)) + i,
              glActiveTexture (GL_TEXTURE0 + Z.of_nat i)) ∈ outer sc'
           ∧ trace (world sc') !! (length (trace (world sc)) + i)
             = Some (glBindTexture GL_TEXTURE_2D textureID)).
Proof.
  intros Hcap. unfold BindGLTextures, andthen, lift, get_this.
  destruct (BindGLTextures_for_spec (m_loadedTextures (this (world sc))) 0
              {| world := world sc; outer := outer sc |})
    as (sc' & Hrun & Hthis & Htr & Hout); [done|simpl; lia|].
  simpl in *. rewrite drop_0 in Htr. rewrite Nat.sub_0_r in Hout.
  exists sc'. split; [done|]. split; [done|]. split; [done|]. split; [done|].
  intros tag i Hslot.
  destruct (FindTextureSlot_cases (world sc) tag Hcap)
    as (slot & Hslot' & [(-> & _) | (j & e & -> & Hj & He & Htag & HID)]).
  - rewrite Hslot' in Hslot. injection Hslot as Hslot. lia.
  - rewrite Hslot' in Hslot. injection Hslot as Hslot.
    apply Nat2Z.inj in Hslot as ->.
    exists (TEXTURE_INFO.ID e). split; [done|]. split.
    + rewrite Hout. apply elem_of_app. right.
      by apply (elem_of_activations _ 0 _ i).
    + rewrite Htr, lookup_app_r by lia.
      replace (length (trace (world sc)) + i - length (trace (world sc)))
        with i by lia.
      rewrite list_lookup_fmap. unfold loaded.
      by rewrite lookup_take_lt, He.
Qed.

(** With room in the table a call of [CreateGLTexture] returns. *)
Lemma CreateGLTexture_returns w l filename tag :
  inserted w l ->
  length l < 16 ->
  ∃ result w' l1,
    CreateGLTexture filename tag w = Ret result w'
    ∧ inserted w' (l ++ l1)
    ∧ m_pShaderManager (this w') = m_pShaderManager (this w)
    ∧ m_objectMaterials (this w') = m_objectMaterials (this w)
    ∧ ((result = true ∧ ∃ textureID, l1 = [TEXTURE_INFO.Build tag textureID])
       ∨ (result = false ∧ l1 = []
          ∧ ¬ ∃ image, decoded w filename = Some image ∧ supported image)).
Proof.
  intros Hins Hlen.
  destruct (inserted_table w l Hins) as (Htbl & Hn & _).
  change TEXTURE_CAPACITY with 16 in Htbl.
  assert (∀ tr, inserted {| this := this w; trace := tr |} (l ++ [])) as Hsame.
  { intros tr. rewrite app_nil_r. by apply (inserted_other w). }
  destruct (decoded w filename) as [image|] eqn:Hdec.
  - destruct (decide (supported image)) as [Hch|Hch].
    + destruct (CreateGLTexture_loaded filename tag w image Hdec Hch)
        as (tr & textureID & Hrun & Hlast); [lia|].
      eexists true, _, [_]. split; [exact Hrun|].
      split; [by eapply inserted_loaded|].
      split; [done|]. split; [done|]. left. eauto.
    + destruct (CreateGLTexture_unsupported filename tag w image Hdec Hch)
        as (tr & Hrun).
      eexists false, _, []. split; [exact Hrun|].
      split; [done|]. split; [done|]. split; [done|]. right.
      split; [done|]. split; [done|]. intros (image' & [= <-] & Hch'). done.
  - destruct (CreateGLTexture_unreadable filename tag w Hdec) as (tr & Hrun).
    eexists false, _, []. split; [exact Hrun|].
    split; [done|]. split; [done|]. split; [done|]. right.
    split; [done|]. split; [done|]. by intros (image' & [=] & _).
Qed.

Lemma load_or_report_spec sc l filename tag message :
  inserted (world sc) l ->
  length l < 16 ->
  ∃ sc' l1,
    load_or_report filename tag message sc = Done tt sc'
    ∧ inserted (world sc') (l ++ l1)
    ∧ sublist (TEXTURE_INFO.tag <$> l1) [tag]
    ∧ outer sc' = outer sc
    ∧ m_pShaderManager (this (world sc')) = m_pShaderManager (this (world sc))
    ∧ m_objectMaterials (this (world sc')) = m_objectMaterials (this (world sc))
    ∧ ((∃ image, decoded (world sc) filename = Some image ∧ supported image) ->
       TEXTURE_INFO.tag <$> l1 = [tag]).
Proof.
  intros Hins Hlen.
  destruct (CreateGLTexture_returns (world sc) l filename tag Hins Hlen)
    as (result & w' & l1 & Hrun & Hins' & Hp & Hmat & Hres).
  unfold load_or_report, andthen, lift. rewrite Hrun.
  destruct Hres as [(-> & textureID & ->) | (-> & -> & Hno)]; simpl.
  - eexists _, _. split; [reflexivity|]. simpl.
    split; [done|]. split; [done|]. split; [done|]. split; [done|]. done.
  - unfold emit. eexists _, []. split; [reflexivity|]. simpl.
    split; [by apply (inserted_other w')|].
    split; [by apply sublist_nil_l|]. split; [done|]. split; [done|].
    split; [done|]. intros Hyes. by destruct Hno.
Qed.

Lemma load_then_spec blocks k sc l :
  inserted (world sc) l ->
  length l + length blocks <= 16 ->
  ∃ sc' l1,
    load_then blocks k sc = k sc'
    ∧ inserted (world sc') (l ++ l1)
    ∧ sublist (TEXTURE_INFO.tag <$> l1) ((fun b => snd (fst b)) <$> blocks)
    ∧ outer sc' = outer sc
    ∧ m_pShaderManager (this (world sc')) = m_pShaderManager (this (world sc))
    ∧ m_objectMaterials (this (world sc')) = m_objectMaterials (this (world sc))
    ∧ (all_load blocks ->
       TEXTURE_INFO.tag <$> l1 = (fun b => snd (fst b)) <$> blocks).
Proof.
  revert sc l. induction blocks as [|[[filename tag] message] blocks IH];
    intros sc l Hins Hlen; simpl in *.
  - exists sc, []. rewrite app_nil_r. by repeat split.
  - destruct (load_or_report_spec sc l filename tag message Hins)
      as (sc1 & l1 & Hrun & Hins1 & Hsub1 & Hout1 & Hp1 & Hmat1 & Hall1); [lia|].
    assert (length l1 <= 1) as Hl1.
    { apply sublist_length in Hsub1. by rewrite length_fmap in Hsub1. }
    destruct (IH sc1 (l ++ l1) Hins1)
      as (sc2 & l2 & Hrun2 & Hins2 & Hsub2 & Hout2 & Hp2 & Hmat2 & Hall2).
    { rewrite length_app. lia. }
    exists sc2, (l1 ++ l2). unfold andthen at 1. rewrite Hrun.
    split; [done|]. split; [by rewrite (assoc_L (++))|].
    split; [rewrite fmap_app; by apply (sublist_app _ [tag])|].
    split; [congruence|]. split; [congruence|]. split; [congruence|].
    intros Hall. rewrite fmap_app.
    rewrite Hall1, Hall2; [done| |].
    + intros tr f Hf. apply Hall. simpl. by right.
    + apply Hall. simpl. left.
Qed.

Lemma LoadSceneTextures_blocks :
  LoadSceneTextures = load_then scene_blocks BindGLTextures.
Proof. reflexivity. Qed.

Lemma LoadSceneTextures_in_order sc l :
  inserted (world sc) l ->
  length l <= 9 ->
  ∃ sc' l1 stamp,
    LoadSceneTextures sc = Done tt sc'
    ∧ inserted (world sc') (l ++ l1)
    ∧ sublist (TEXTURE_INFO.tag <$> l1)
        ["background"; "pot"; "gold"; "rustic"; "melon"; "leaf"; "knife"]
    ∧ outer sc' = outer sc ++ activations stamp 0 (length (l ++ l1))
    ∧ m_pShaderManager (this (world sc')) = m_pShaderManager (this (world sc))
    ∧ m_objectMaterials (this (world sc')) = m_objectMaterials (this (world sc))
    ∧ (all_load scene_blocks ->
       TEXTURE_INFO.tag <$> l1
       = ["background"; "pot"; "gold"; "rustic"; "melon"; "leaf"; "knife"]).
Proof.
  intros Hins Hlen. rewrite LoadSceneTextures_blocks.
  destruct (load_then_spec scene_blocks BindGLTextures sc l Hins)
    as (sc1 & l1 & Hrun & Hins1 & Hsub & Hout & Hp & Hmat & Hall); [simpl; lia|].
  pose proof (inserted_capacity _ _ Hins1) as Hcap.
  destruct (inserted_table _ _ Hins1) as (_ & Hn & _).
  destruct (BindGLTextures_for_spec (m_loadedTextures (this (world sc1))) 0
              {| world := world sc1; outer := outer sc1 |})
    as (sc' & Hbind & Hthis & Htr & Hout'); [done|simpl; lia|].
  simpl in *. rewrite Nat.sub_0_r in Hout'.
  exists sc', l1, (length (trace (world sc1))).
  rewrite Hrun. unfold BindGLTextures, andthen, lift, get_this.
  split; [done|].
  split; [by apply (inserted_other (world sc1)); rewrite ?Hthis|].
  split; [done|]. split; [by rewrite Hout', Hout, Hn|].
  split; [by rewrite Hthis|]. split; [by rewrite Hthis|]. done.
Qed.


Lemma scan_slot_nodup tag miss l i :
  NoDup (TEXTURE_INFO.tag <$> l) ->
  (TEXTURE_INFO.tag <$> l) !! i = Some tag ->
  scan_slot tag miss 0 l = Z.of_nat i.
Proof.
  intros Hdup Hi. rewrite list_lookup_fmap in Hi.
  destruct (l !! i) as [e|] eqn:He; [|done]. injection Hi as Htag.
  rewrite (scan_slot_first tag miss 0 l i e He Htag); [done|].
  intros j e' Hj He' Heq.
  assert (j = i) as -> by
    (apply (NoDup_lookup _ j i tag Hdup);
       rewrite list_lookup_fmap; [rewrite He', <- Heq|rewrite He, <- Htag]; done).
  lia.
Qed.

(** X13: when each of the seven files decodes to 3 or 4 channels at
    any time, [LoadSceneTextures] on a newly constructed scene manager
    inserts all seven tags, and the slot of each is its position in the
    order of the calls: background 0, pot 1, gold 2, rustic 3, melon 4,
    leaf 5, knife 6. *)
Theorem LoadSceneTextures_slots pShaderManager tr calls :
  all_load scene_blocks ->
  ∃ sc',
    LoadSceneTextures
      {| world := {| this := SceneManager_new pShaderManager; trace := tr |};
         outer := calls |}
    = Done tt sc'
    ∧ m_loadedTextures (this (world sc')) = 7
    ∧ ∀ i tag,
        ["background"; "pot"; "gold"; "rustic"; "melon"; "leaf"; "knife"] !! i
        = Some tag ->
        FindTextureSlot tag (world sc') = Ret (Z.of_nat i) (world sc').
Proof.
  intros Hall. rewrite LoadSceneTextures_blocks.
  set (sc := {| world := _; outer := _ |}).
  destruct (load_then_spec scene_blocks BindGLTextures sc [])
    as (sc1 & l1 & Hrun & Hins1 & _ & _ & _ & _ & Htags);
    [apply inserted_new|simpl; lia|].
  specialize (Htags Hall). simpl in Hins1, Htags.
  pose proof (inserted_capacity _ _ Hins1) as Hcap.
  destruct (inserted_table _ _ Hins1) as (_ & Hn & Hl).
  destruct (BindGLTextures_for_spec (m_loadedTextures (this (world sc1))) 0
              {| world := world sc1; outer := outer sc1 |})
    as (sc' & Hbind & Hthis & _ & _); [done|simpl; lia|].
  simpl in *.
  exists sc'. rewrite Hrun. unfold BindGLTextures, andthen, lift, get_this.
  split; [done|].
  assert (length l1 = 7) as Hlen
    by (rewrite <- (length_fmap TEXTURE_INFO.tag), Htags; done).
  split; [by rewrite Hthis, Hn|].
  intros i tag Hi.
  rewrite FindTextureSlot_scan by (by rewrite Hthis).
  unfold loaded. rewrite Hthis. fold (loaded (world sc1)). rewrite Hl.
  f_equal. apply scan_slot_nodup; rewrite Htags; [|done].
  apply (bool_decide_unpack _). by vm_compute.
Qed.


Lemma SetupSceneLights_returns sc p :
  m_pShaderManager (this (world sc)) = Some p ->
  ∃ sc',
    SetupSceneLights sc = Done tt sc'
    ∧ this (world sc') = this (world sc).
Proof.
  intros Hp.
  unfold SetupSceneLights, light_vec3, light_float, through_shader,
    andthen, lift, call, get_this, emit.
  simpl. repeat (rewrite Hp; simpl). eauto.
Qed.

Lemma PrepareScene_returns sc l p :
  m_pShaderManager (this (world sc)) = Some p ->
  inserted (world sc) l ->
  length l <= 9 ->
  ∃ sc' l1 calls stamp,
    PrepareScene sc = Done tt sc'
    ∧ m_objectMaterials (this (world sc'))
      = m_objectMaterials (this (world sc)) ++ scene_materials
    ∧ inserted (world sc') (l ++ l1)
    ∧ sublist (TEXTURE_INFO.tag <$> l1)
        ["background"; "pot"; "gold"; "rustic"; "melon"; "leaf"; "knife"]
    ∧ m_pShaderManager (this (world sc')) = Some p
    ∧ outer sc'
      = calls ++ [(stamp, LoadPlaneMesh); (stamp, LoadSphereMesh);
                  (stamp, LoadBoxMesh); (stamp, LoadTorusMesh);
                  (stamp, LoadTaperedCylinderMesh)]
    ∧ (all_load scene_blocks ->
       TEXTURE_INFO.tag <$> l1
       = ["background"; "pot"; "gold"; "rustic"; "melon"; "leaf"; "knife"]).
Proof.
  intros Hp Hins Hlen.
  unfold PrepareScene, andthen at 1, lift at 1.
  rewrite DefineObjectMaterials_eq. unfold andthen at 1.
  set (sc1 := {| world := _; outer := _ |}).
  destruct (SetupSceneLights_returns sc1 p Hp) as (sc2 & -> & Hthis2).
  assert (inserted (world sc2) l) as Hins2.
  { apply (inserted_other (world sc)); [done|by rewrite Hthis2..]. }
  destruct (LoadSceneTextures_in_order sc2 l Hins2 Hlen)
    as (sc3 & l1 & stamp & Hrun3 & Hins3 & Hsub & Hout & Hp3 & Hmat3 & Hall).
  unfold andthen at 1. rewrite Hrun3.
  unfold andthen, call. simpl.
  exists {| world := world sc3;
            outer := outer sc3
              ++ [(length (trace (world sc3)), LoadPlaneMesh);
                  (length (trace (world sc3)), LoadSphereMesh);
                  (length (trace (world sc3)), LoadBoxMesh);
                  (length (trace (world sc3)), LoadTorusMesh);
                  (length (trace (world sc3)), LoadTaperedCylinderMesh)] |},
    l1, (outer sc3), (length (trace (world sc3))).
  split; [by rewrite <- !(assoc_L (++))|]. simpl.
  split; [by rewrite Hmat3, Hthis2|]. split; [done|]. split; [done|].
  split; [by rewrite Hp3, Hthis2|]. done.
Qed.


(** X19: the destructor releases no texture and does not reset the
    table.  It sets the pointer to the shader manager to NULL, deletes
    the mesh object, makes one call of [glGenTextures] for each loaded
    texture and no other call to OpenGL, and empties the material list;
    the count of loaded textures is afterwards what it was. *)
Theorem SceneManager_delete_outcome sc :
  m_loadedTextures (this (world sc)) <= length (m_textureIDs (this (world sc))) ->
  ∃ names sc',
    SceneManager_delete sc = Done tt sc'
    ∧ length names = m_loadedTextures (this (world sc))
    ∧ trace (world sc') = trace (world sc) ++ (glGenTextures 1 <$> names)
    ∧ outer sc' = outer sc ++ [(length (trace (world sc)), delete_ShapeMeshes)]
    ∧ m_pShaderManager (this (world sc')) = None
    ∧ m_objectMaterials (this (world sc')) = []
    ∧ m_loadedTextures (this (world sc')) = m_loadedTextures (this (world sc)).
Proof.
  intros Hcap. destruct sc as [[s tr] calls]. simpl in Hcap.
  unfold SceneManager_delete, andthen, lift, call, get_this, put_this,
    DestroyGLTextures, bind. simpl.
  destruct (DestroyGLTextures_for_spec (m_loadedTextures s) 0
              {| this := set_pShaderManager s None; trace := tr |})
    as (names & w' & Hrun & Hlen & Htr & Hn & Hp & _); [done|simpl; lia|].
  simpl in *. rewrite Hrun. rewrite Nat.sub_0_r in Hlen.
  eexists names, _. split; [reflexivity|]. simpl.
  by repeat split.
Qed.

End Preparing.

(** ** Rendering the scene *)

Section Render.
Context `{Glm} `{!Platform}.
Implicit Types (s : SceneManager) (tr : list Event) (calls : list (nat * Outer))
  (indeterminate : OBJECT_MATERIAL.t) (p : addr).

Lemma transform_eq s tr calls p sx sy sz rx ry rz px py pz :
  m_pShaderManager s = Some p ->
  transform sx sy sz rx ry rz px py pz (at_scene s tr calls)
  = Done tt
      (at_scene s
         (tr ++ [setMat4Value p "model"
                   (model_matrix (vec3_lit sx sy sz) (float_lit rx) (float_lit ry)
                      (float_lit rz) (vec3_lit px py pz))])
         calls).
Proof.
  intros Hp. unfold transform, lift, SetTransformations, bind, get_this.
  simpl. by rewrite Hp.
Qed.

Lemma uv_scale_eq s tr calls p u v :
  m_pShaderManager s = Some p ->
  uv_scale u v (at_scene s tr calls)
  = Done tt
      (at_scene s (tr ++ [setVec2Value p "UVscale" (Vec2 (float_lit u) (float_lit v))])
         calls).
Proof.
  intros Hp. unfold uv_scale, lift, SetTextureUVScale, bind, get_this.
  simpl. by rewrite Hp.
Qed.

Lemma texture_eq s tr calls p textureTag :
  m_pShaderManager s = Some p ->
  m_loadedTextures s <= length (m_textureIDs s) ->
  texture textureTag (at_scene s tr calls)
  = Done tt
      (at_scene s
         (tr ++ [setIntValue p "bUseTexture" 1;
                 setSampler2DValue p "objectTexture"
                   (scan_slot textureTag (-1) 0
                      (take (m_loadedTextures s) (m_textureIDs s)))])
         calls).
Proof.
  intros Hp Hcap. unfold texture, lift, SetShaderTexture, bind at 1, get_this at 1.
  simpl. rewrite Hp. unfold bind at 1, emit at 1. unfold bind at 1.
  rewrite FindTextureSlot_scan by done. unfold emit, loaded, at_scene. simpl.
  by rewrite <- (assoc_L (++)).
Qed.

Lemma material_eq indeterminate s tr calls p materialTag :
  m_pShaderManager s = Some p ->
  material indeterminate materialTag (at_scene s tr calls)
  = Done tt (at_scene s (tr ++ material_sent s p indeterminate materialTag) calls).
Proof.
  intros Hp. unfold material, lift, material_sent.
  rewrite SetShaderMaterial_eq. simpl. rewrite Hp.
  destruct (m_objectMaterials s); [|done].
  unfold at_scene. by rewrite app_nil_r.
Qed.

Lemma call_eq s tr calls (c : Outer) :
  call c (at_scene s tr calls) = Done tt (at_scene s tr (calls ++ [(length tr, c)])).
Proof. reflexivity. Qed.

Lemma material_sent_defined s p indeterminate materialTag m :
  first_material materialTag (m_objectMaterials s) = Some m ->
  material_sent s p indeterminate materialTag = material_calls p m.
Proof.
  unfold material_sent. intros Hm. rewrite Hm.
  by destruct (m_objectMaterials s).
Qed.

Lemma draws_snoc calls stamp (c : Outer) :
  draws (calls ++ [(stamp, c)]) = draws calls ++ (if is_draw c then [c] else []).
Proof.
  unfold draws. rewrite fmap_app, filter_app. f_equal.
  by destruct c.
Qed.

Ltac run_script p Hp Hcap :=
  unfold RenderScene, DrawBackDrop, DrawVase, DrawChest, DrawMelon, DrawLeaves;
  unfold andthen;
  repeat (first [ rewrite (transform_eq _ _ _ p) by exact Hp
                | rewrite (uv_scale_eq _ _ _ p) by exact Hp
                | rewrite (texture_eq _ _ _ p) by (exact Hp || exact Hcap)
                | rewrite (material_eq _ _ _ _ p) by exact Hp
                | rewrite call_eq ];
          cbv beta iota).

(** X15: with a shader manager, [RenderScene] returns without a fault
    whatever the textures and materials are, changes no member, and
    draws sixteen meshes: the plane, the torus, the tapered cylinder,
    the half torus, three boxes and nine spheres, in this order. *)
Theorem RenderScene_draws indeterminate sc p :
  m_pShaderManager (this (world sc)) = Some p ->
  m_loadedTextures (this (world sc)) <= length (m_textureIDs (this (world sc))) ->
  ∃ sc',
    RenderScene indeterminate sc = Done tt sc'
    ∧ this (world sc') = this (world sc)
    ∧ draws (outer sc')
      = draws (outer sc)
        ++ [DrawPlaneMesh; DrawTorusMesh; DrawTaperedCylinderMesh;
            DrawHalfTorusMesh; DrawBoxMesh; DrawBoxMesh; DrawBoxMesh;
            DrawSphereMesh; DrawSphereMesh; DrawSphereMesh; DrawSphereMesh;
            DrawSphereMesh; DrawSphereMesh; DrawSphereMesh; DrawSphereMesh;
            DrawSphereMesh].
Proof.
  destruct sc as [[s tr] calls]. simpl. intros Hp Hcap.
  change {| world := {| this := s; trace := tr |}; outer := calls |}
    with (at_scene s tr calls).
  eexists. split; [run_script p Hp Hcap; reflexivity|].
  split; [done|].
  unfold at_scene. cbn [outer].
  rewrite !draws_snoc. cbn [is_draw].
  by rewrite <- !(assoc_L (++)).
Qed.

(** When each tag that [RenderScene] passes to [SetShaderMaterial] is
    the tag of some material, what [RenderScene] does is the same for
    all values of the local record. *)
Lemma RenderScene_defined s tr calls p :
  m_pShaderManager s = Some p ->
  m_loadedTextures s <= length (m_textureIDs s) ->
  (∀ tag, tag ∈ rendered_materials ->
          ∃ m, first_material tag (m_objectMaterials s) = Some m) ->
  ∃ res, ∀ indeterminate, RenderScene indeterminate (at_scene s tr calls) = res.
Proof.
  intros Hp Hcap Hdef.
  destruct (Hdef "turqoise") as [m1 H1]; [by (apply (bool_decide_unpack _); vm_compute)|].
  destruct (Hdef "silver") as [m2 H2]; [by (apply (bool_decide_unpack _); vm_compute)|].
  destruct (Hdef "metal") as [m3 H3]; [by (apply (bool_decide_unpack _); vm_compute)|].
  destruct (Hdef "bluewood") as [m4 H4]; [by (apply (bool_decide_unpack _); vm_compute)|].
  destruct (Hdef "blackmetal") as [m5 H5]; [by (apply (bool_decide_unpack _); vm_compute)|].
  destruct (Hdef "cheese") as [m6 H6]; [by (apply (bool_decide_unpack _); vm_compute)|].
  eexists. intros indeterminate.
  run_script p Hp Hcap.
  rewrite !(material_sent_defined s p _ _ m1 H1), !(material_sent_defined s p _ _ m2 H2),
    !(material_sent_defined s p _ _ m3 H3), !(material_sent_defined s p _ _ m4 H4),
    !(material_sent_defined s p _ _ m5 H5), !(material_sent_defined s p _ _ m6 H6).
  reflexivity.
Qed.

(** X16: when each of the tags turqoise, silver, metal, bluewood,
    blackmetal and cheese is the tag of a material of the list, the
    record that [SetShaderMaterial] declares without a value never
    reaches the shader: with a shader manager, [RenderScene] makes the
    same calls and gives the same result whatever that record
    holds. *)
Theorem RenderScene_materials_defined indeterminate indeterminate' sc p :
  m_pShaderManager (this (world sc)) = Some p ->
  m_loadedTextures (this (world sc)) <= length (m_textureIDs (this (world sc))) ->
  (∀ tag, tag ∈ rendered_materials ->
          ∃ m, first_material tag (m_objectMaterials (this (world sc))) = Some m) ->
  RenderScene indeterminate sc = RenderScene indeterminate' sc.
Proof.
  destruct sc as [[s tr] calls]. simpl. intros Hp Hcap Hdef.
  destruct (RenderScene_defined s tr calls p Hp Hcap Hdef) as [res Hres].
  change {| world := {| this := s; trace := tr |}; outer := calls |}
    with (at_scene s tr calls).
  by rewrite !Hres.
Qed.

Lemma samplers_app tr tr' : samplers (tr ++ tr') = samplers tr ++ samplers tr'.
Proof. apply omap_app. Qed.

Lemma samplers_material_sent s p indeterminate materialTag :
  samplers (material_sent s p indeterminate materialTag) = [].
Proof. unfold material_sent. by destruct (m_objectMaterials s). Qed.

(** The samplers that [RenderScene] sets, in the order of its calls of
    [SetShaderTexture]. *)
Lemma RenderScene_samplers indeterminate s tr calls p :
  m_pShaderManager s = Some p ->
  m_loadedTextures s <= length (m_textureIDs s) ->
  ∃ new calls',
    RenderScene indeterminate (at_scene s tr calls)
    = Done tt (at_scene s (tr ++ new) calls')
    ∧ samplers new
      = (fun tag => scan_slot tag (-1) 0 (take (m_loadedTextures s) (m_textureIDs s)))
          <$> ["background"; "pot"; "pot"; "gold"; "rustic"; "knife"; "knife";
               "melon"; "leaf"].
Proof.
  intros Hp Hcap.
  run_script p Hp Hcap.
  match goal with
  | |- ∃ new calls', Done tt (at_scene s ?big ?cs) = _ ∧ _ =>
    exists (drop (length tr) big), cs
  end.
  rewrite <- !(assoc_L (++) tr), drop_app_length.
  split; [reflexivity|].
  rewrite !samplers_app, !samplers_material_sent. reflexivity.
Qed.

Lemma scan_slot_hit tag (l : list TEXTURE_INFO.t) :
  (∃ e, e ∈ l ∧ TEXTURE_INFO.tag e = tag) ->
  (0 <= scan_slot tag (-1) 0 l < Z.of_nat (length l))%Z.
Proof.
  intros Hhit. by destruct (scan_slot_app_hit tag (-1) l [] Hhit) as [_ ?].
Qed.

(** X17: when each of the tags background, pot, gold, rustic, knife,
    melon and leaf has been inserted, every sampler that [RenderScene]
    sets is the slot of a texture in use, a number from 0 to 15; none
    of its nine calls of [SetShaderTexture] sets the sampler to -1. *)
Theorem RenderScene_textures_defined indeterminate sc l p :
  inserted (world sc) l ->
  m_pShaderManager (this (world sc)) = Some p ->
  (∀ tag, tag ∈ rendered_textures ->
          ∃ e, e ∈ l ∧ TEXTURE_INFO.tag e = tag) ->
  ∃ sc' new,
    RenderScene indeterminate sc = Done tt sc'
    ∧ trace (world sc') = trace (world sc) ++ new
    ∧ length (samplers new) = 9
    ∧ Forall (fun value => (0 <= value < 16)%Z) (samplers new).
Proof.
  destruct sc as [[s tr] calls]. simpl. intros Hins Hp Hdef.
  pose proof (inserted_capacity _ _ Hins) as Hcap.
  destruct (inserted_table _ _ Hins) as (_ & _ & Hl).
  pose proof (inserted_at_most_16 _ _ Hins) as Hle.
  unfold loaded in Hl. simpl in Hcap, Hl.
  destruct (RenderScene_samplers indeterminate s tr calls p Hp Hcap)
    as (new & calls' & Hrun & Hsamplers).
  exists (at_scene s (tr ++ new) calls'), new.
  split; [exact Hrun|]. split; [done|].
  rewrite Hsamplers, Hl. split; [done|].
  apply Forall_fmap, Forall_forall. intros tag Htag. simpl.
  assert (tag ∈ rendered_textures) as Hin.
  { revert tag Htag. apply Forall_forall.
    apply (bool_decide_unpack _). by vm_compute. }
  pose proof (scan_slot_hit tag l (Hdef tag Hin)). lia.
Qed.







(** X20: the scene as a whole.  When each of the seven files decodes
    to 3 or 4 channels, [PrepareScene] on a newly constructed scene
    manager with a shader manager returns, and [RenderScene] after it
    finds every tag it uses: the nine samplers it sets are the slots
    0, 1, 1, 2, 3, 6, 6, 4, 5 of background, pot, pot, gold, rustic,
    knife, knife, melon and leaf, and every material it asks for is
    defined, so that nothing of what it does depends on the record
    that [SetShaderMaterial] declares without a value. *)
Theorem prepared_scene_renders p tr calls indeterminate :
  all_load scene_blocks ->
  ∃ sc1 sc' new,
    PrepareScene
      {| world := {| this := SceneManager_new (Some p); trace := tr |};
         outer := calls |}
    = Done tt sc1
    ∧ RenderScene indeterminate sc1 = Done tt sc'
    ∧ (∀ indeterminate', RenderScene indeterminate' sc1 = Done tt sc')
    ∧ trace (world sc') = trace (world sc1) ++ new
    ∧ samplers new = [0; 1; 1; 2; 3; 6; 6; 4; 5]%Z.
Proof.
  intros Hall.
  set (sc0 := {| world := _; outer := _ |}).
  destruct (PrepareScene_returns sc0 [] p)
    as (sc1 & l1 & calls1 & stamp & Hrun & Hmat & Hins & _ & Hp & _ & Htags);
    [done|apply inserted_new|simpl; lia|].
  specialize (Htags Hall). simpl in Hins, Hmat.
  destruct sc1 as [[s1 tr1] calls']. simpl in *.
  pose proof (inserted_capacity _ _ Hins) as Hcap.
  destruct (inserted_table _ _ Hins) as (_ & _ & Hl).
  unfold loaded in Hl. simpl in Hcap, Hl.
  destruct (RenderScene_samplers indeterminate s1 tr1 calls' p Hp Hcap)
    as (new & calls2 & Hrender & Hsamplers).
  destruct (RenderScene_defined s1 tr1 calls' p Hp Hcap) as [res Hres].
  { apply Forall_forall. rewrite Hmat. unfold rendered_materials.
    repeat (constructor; [eexists; reflexivity|]). constructor. }
  fold (at_scene s1 tr1 calls').
  exists (at_scene s1 tr1 calls'), (at_scene s1 (tr1 ++ new) calls2), new.
  split; [done|]. split; [done|].
  split; [intros indeterminate'; by rewrite Hres, <- (Hres indeterminate)|].
  split; [done|].
  rewrite Hsamplers, Hl. cbn [fmap list_fmap].
  assert (TEXTURE_INFO.tag <$> l1
          = TEXTURE_INFO.tag <$>
              ((fun tag => TEXTURE_INFO.Build tag 0) <$>
                 ["background"; "pot"; "gold"; "rustic"; "melon"; "leaf"; "knife"]))
    as Hsame by (by rewrite Htags).
  rewrite !(scan_slot_tags _ _ _ _ _ Hsame). reflexivity.
Qed.

End Render.

(** ** The further properties at work on the scene *)

Section Scene_more.
#[local] Existing Instance sym_glm.
#[local] Existing Instance demo_platform.

Lemma demo_scene_inserted : inserted demo_scene demo_entries.
Proof. apply (inserted_replayed scene_textures). vm_compute; reflexivity. Qed.

Lemma demo_all_load : all_load scene_blocks.
Proof.
  intros tr filename Hin. exists (picture 3). split; [|by left].
  simpl in *. unfold demo_files. by rewrite bool_decide_eq_true_2.
Qed.

Lemma inserted_table_layout_witness :
  inserted demo_twice [entry "pot" 1; entry "pot" 3]
  ∧ m_textureIDs (this demo_twice)
    = [entry "pot" 1; entry "pot" 3] ++ replicate 14 (entry "/0" (-1))
  ∧ m_loadedTextures (this demo_twice) = 2.
Proof.
  assert (inserted demo_twice [entry "pot" 1; entry "pot" 3]) as Hins.
  { apply (inserted_replayed
             [("PotGold.jpg", "pot"); ("gray.png", "gray");
              ("missing.jpg", "pot"); ("melon.bmp", "pot")]).
    vm_compute; reflexivity. }
  split; [exact Hins|].
  destruct (inserted_table_layout demo_twice _ Hins) as (Htbl & Hn & _).
  split; [exact Htbl|exact Hn].
Defined.

Lemma CreateGLTexture_keeps_registered_witness :
  inserted demo_pot [entry "pot" 1]
  ∧ CreateGLTexture "melon.bmp" "pot" demo_pot = Ret true demo_pot_again
  ∧ entry "pot" 1 ∈ [entry "pot" 1]
  ∧ ∃ textureID textureSlot,
      FindTextureID "pot" demo_pot = Ret textureID demo_pot
      ∧ FindTextureID "pot" demo_pot_again = Ret textureID demo_pot_again
      ∧ FindTextureSlot "pot" demo_pot = Ret textureSlot demo_pot
      ∧ FindTextureSlot "pot" demo_pot_again = Ret textureSlot demo_pot_again
      ∧ (0 <= textureSlot < 16)%Z.
Proof.
  assert (inserted demo_pot [entry "pot" 1]) as Hins
    by (apply (inserted_replayed [("PotGold.jpg", "pot")]); vm_compute; reflexivity).
  assert (CreateGLTexture "melon.bmp" "pot" demo_pot = Ret true demo_pot_again)
    as Hrun by (vm_compute; reflexivity).
  assert (entry "pot" 1 ∈ [entry "pot" 1]) as Hin by left.
  split; [exact Hins|]. split; [exact Hrun|]. split; [exact Hin|].
  exact (CreateGLTexture_keeps_registered demo_pot _ "melon.bmp" "pot" true
           demo_pot_again (entry "pot" 1) Hins Hrun Hin).
Defined.

Lemma FindTextureSlot_agrees_with_FindTextureID_witness :
  m_loadedTextures (this demo_scene) <= length (m_textureIDs (this demo_scene))
  ∧ ∃ textureSlot, FindTextureSlot "melon" demo_scene = Ret textureSlot demo_scene.
Proof.
  assert (m_loadedTextures (this demo_scene) <= length (m_textureIDs (this demo_scene)))
    as Hcap by (vm_compute; lia).
  split; [exact Hcap|].
  destruct (FindTextureSlot_agrees_with_FindTextureID demo_scene "melon" Hcap)
    as (textureSlot & Hslot & _).
  exists textureSlot. exact Hslot.
Defined.

Lemma CreateGLTexture_decoded_resources_witness :
  decoded demo_scene "gray.png" = Some (picture 1)
  ∧ ¬ supported (picture 1)
  ∧ ∃ new name,
      CreateGLTexture "gray.png" "gray" demo_scene
      = Ret false {| this := this demo_scene; trace := trace demo_scene ++ new |}
      ∧ generated new = [name]
      ∧ bound_texture new = Some name
      ∧ freed new = [].
Proof.
  assert (decoded demo_scene "gray.png" = Some (picture 1)) as Hdec
    by (vm_compute; reflexivity).
  assert (¬ supported (picture 1)) as Hch
    by (intros [Hch|Hch]; vm_compute in Hch; discriminate Hch).
  split; [exact Hdec|]. split; [exact Hch|].
  destruct (CreateGLTexture_decoded_resources "gray.png" "gray" demo_scene
              (picture 1) Hdec) as [_ Hleak].
  exact (Hleak Hch).
Defined.

Lemma SetShaderTexture_sends_slot_witness :
  inserted demo_scene demo_entries
  ∧ m_pShaderManager (this demo_scene) = Some 1%positive
  ∧ SetShaderTexture "nowhere" demo_scene
    = Ret tt {| this := this demo_scene;
                trace := trace demo_scene ++
                  [setIntValue 1%positive "bUseTexture" 1;
                   setSampler2DValue 1%positive "objectTexture" (-1)] |}.
Proof.
  assert (inserted demo_scene demo_entries) as Hins
    by (apply (inserted_replayed scene_textures); vm_compute; reflexivity).
  assert (m_pShaderManager (this demo_scene) = Some 1%positive) as Hp
    by (vm_compute; reflexivity).
  split; [exact Hins|]. split; [exact Hp|].
  destruct (SetShaderTexture_sends_slot demo_scene demo_entries 1%positive
              "nowhere" Hins Hp) as (textureSlot & _ & Hrun & _ & Hmiss).
  rewrite Hrun, Hmiss; [reflexivity|].
  intros e He. apply (bool_decide_unpack _).
  revert e He. apply Forall_forall. apply (bool_decide_unpack _).
  vm_compute. exact I.
Defined.

Lemma SetShaderMaterial_null_pointer_witness :
  m_objectMaterials (this demo_null_materials) ≠ []
  ∧ m_pShaderManager (this demo_null_materials) = None
  ∧ SetShaderMaterial silver "cheese" demo_null_materials = Fault NullPointer.
Proof.
  assert (m_objectMaterials (this demo_null_materials) ≠ []) as Hne
    by (simpl; discriminate).
  assert (m_pShaderManager (this demo_null_materials) = None) as Hnull
    by reflexivity.
  split; [exact Hne|]. split; [exact Hnull|].
  destruct (SetShaderMaterial_null_pointer silver "cheese" demo_null_materials)
    as [_ Hfault].
  exact (Hfault Hne Hnull).
Defined.

Lemma SetShaderMaterial_sends_witness :
  m_objectMaterials (this demo_materials) ≠ []
  ∧ m_pShaderManager (this demo_materials) = Some 1%positive
  ∧ ∃ sent,
      SetShaderMaterial silver "gold" demo_materials
      = Ret tt {| this := this demo_materials;
                  trace := trace demo_materials ++ material_calls 1%positive sent |}
      ∧ ((∀ m, m ∈ m_objectMaterials (this demo_materials) ->
               OBJECT_MATERIAL.tag m ≠ "gold") ->
         sent = silver).
Proof.
  assert (m_objectMaterials (this demo_materials) ≠ []) as Hne
    by (simpl; discriminate).
  assert (m_pShaderManager (this demo_materials) = Some 1%positive) as Hp
    by reflexivity.
  split; [exact Hne|]. split; [exact Hp|].
  destruct (SetShaderMaterial_sends silver "gold" demo_materials 1%positive Hne Hp)
    as (sent & Hrun & _ & Hmiss).
  exists sent. split; [exact Hrun|exact Hmiss].
Defined.

Lemma FindMaterial_finds_each_witness :
  NoDup (OBJECT_MATERIAL.tag <$> m_objectMaterials (this demo_materials))
  ∧ cheeseMaterial ∈ m_objectMaterials (this demo_materials)
  ∧ FindMaterial "cheese" silver demo_materials
    = Ret (true, copy_material cheeseMaterial silver) demo_materials.
Proof.
  assert (NoDup (OBJECT_MATERIAL.tag <$> m_objectMaterials (this demo_materials)))
    as Hdup by (apply (bool_decide_unpack _); vm_compute; exact I).
  assert (cheeseMaterial ∈ m_objectMaterials (this demo_materials)) as Hin
    by (simpl; unfold scene_materials; do 4 right; left).
  split; [exact Hdup|]. split; [exact Hin|].
  destruct (FindMaterial_finds_each demo_materials silver cheeseMaterial Hdup Hin)
    as [Hfound _].
  exact Hfound.
Defined.

Lemma DefineObjectMaterials_keeps_earlier_witness :
  first_material "cheese" (m_objectMaterials (this demo_materials))
  = Some cheeseMaterial
  ∧ ∃ w',
      DefineObjectMaterials demo_materials = Ret tt w'
      ∧ length (m_objectMaterials (this w')) = 12
      ∧ FindMaterial "cheese" silver w'
        = Ret (true, copy_material cheeseMaterial silver) w'.
Proof.
  assert (first_material "cheese" (m_objectMaterials (this demo_materials))
          = Some cheeseMaterial) as Hfirst by reflexivity.
  split; [exact Hfirst|].
  destruct (DefineObjectMaterials_keeps_earlier demo_materials "cheese" silver
              cheeseMaterial Hfirst) as (w' & Hrun & _ & Hlen & _ & Hfind).
  exists w'. split; [exact Hrun|]. split; [exact Hlen|exact Hfind].
Defined.


Lemma BindGLTextures_units_witness :
  m_loadedTextures (this (world demo_loaded))
  <= length (m_textureIDs (this (world demo_loaded)))
  ∧ ∃ sc',
      BindGLTextures demo_loaded = Done tt sc'
      ∧ this (world sc') = this (world demo_loaded)
      ∧ outer sc'
        = outer demo_loaded
          ++ activations (length (trace (world demo_loaded))) 0
               (m_loadedTextures (this (world demo_loaded))).
Proof.
  assert (m_loadedTextures (this (world demo_loaded))
          <= length (m_textureIDs (this (world demo_loaded)))) as Hcap
    by (vm_compute; lia).
  split; [exact Hcap|].
  destruct (BindGLTextures_units demo_loaded Hcap)
    as (sc' & Hrun & Hthis & _ & Hout & _).
  exists sc'. split; [exact Hrun|]. split; [exact Hthis|exact Hout].
Defined.


Lemma LoadSceneTextures_slots_witness :
  all_load scene_blocks
  ∧ ∃ sc',
      LoadSceneTextures demo_fresh = Done tt sc'
      ∧ m_loadedTextures (this (world sc')) = 7
      ∧ FindTextureSlot "knife" (world sc') = Ret 6%Z (world sc').
Proof.
  split; [exact demo_all_load|].
  destruct (LoadSceneTextures_slots (Some 1%positive) [] [] demo_all_load)
    as (sc' & Hrun & Hn & Hslots).
  exists sc'. split; [exact Hrun|]. split; [exact Hn|].
  exact (Hslots 6 "knife" eq_refl).
Defined.


Lemma SceneManager_delete_outcome_witness :
  m_loadedTextures (this (world demo_loaded))
  <= length (m_textureIDs (this (world demo_loaded)))
  ∧ ∃ (names : list Z) sc',
      SceneManager_delete demo_loaded = Done tt sc'
      ∧ length names = 7
      ∧ m_pShaderManager (this (world sc')) = None
      ∧ m_objectMaterials (this (world sc')) = []
      ∧ m_loadedTextures (this (world sc')) = 7.
Proof.
  assert (m_loadedTextures (this (world demo_loaded))
          <= length (m_textureIDs (this (world demo_loaded)))) as Hcap
    by (vm_compute; lia).
  split; [exact Hcap|].
  destruct (SceneManager_delete_outcome demo_loaded Hcap)
    as (names & sc' & Hrun & Hlen & _ & _ & Hp & Hmat & Hn).
  exists names, sc'. split; [exact Hrun|]. split; [exact Hlen|].
  split; [exact Hp|]. split; [exact Hmat|exact Hn].
Defined.

Lemma RenderScene_draws_witness :
  m_pShaderManager (this (world demo_prepared)) = Some 1%positive
  ∧ m_loadedTextures (this (world demo_prepared))
    <= length (m_textureIDs (this (world demo_prepared)))
  ∧ ∃ sc',
      RenderScene silver demo_prepared = Done tt sc'
      ∧ this (world sc') = this (world demo_prepared)
      ∧ length (draws (outer sc')) = 16.
Proof.
  assert (m_pShaderManager (this (world demo_prepared)) = Some 1%positive) as Hp
    by (vm_compute; reflexivity).
  assert (m_loadedTextures (this (world demo_prepared))
          <= length (m_textureIDs (this (world demo_prepared)))) as Hcap
    by (vm_compute; lia).
  split; [exact Hp|]. split; [exact Hcap|].
  destruct (RenderScene_draws silver demo_prepared 1%positive Hp Hcap)
    as (sc' & Hrun & Hthis & Hdraws).
  exists sc'. split; [exact Hrun|]. split; [exact Hthis|].
  rewrite Hdraws. reflexivity.
Defined.

Lemma demo_prepared_materials :
  ∀ tag, tag ∈ rendered_materials ->
    ∃ m, first_material tag (m_objectMaterials (this (world demo_prepared))) = Some m.
Proof.
  apply Forall_forall. unfold rendered_materials.
  repeat (constructor; [eexists; reflexivity|]). constructor.
Qed.

Lemma RenderScene_materials_defined_witness :
  m_pShaderManager (this (world demo_prepared)) = Some 1%positive
  ∧ m_loadedTextures (this (world demo_prepared))
    <= length (m_textureIDs (this (world demo_prepared)))
  ∧ RenderScene silver demo_prepared = RenderScene cheeseMaterial demo_prepared.
Proof.
  assert (m_pShaderManager (this (world demo_prepared)) = Some 1%positive) as Hp
    by (vm_compute; reflexivity).
  assert (m_loadedTextures (this (world demo_prepared))
          <= length (m_textureIDs (this (world demo_prepared)))) as Hcap
    by (vm_compute; lia).
  split; [exact Hp|]. split; [exact Hcap|].
  exact (RenderScene_materials_defined silver cheeseMaterial demo_prepared
           1%positive Hp Hcap demo_prepared_materials).
Defined.

Lemma demo_prepared_inserted : inserted (world demo_prepared) demo_entries.
Proof.
  apply (inserted_other demo_scene);
    [exact demo_scene_inserted| |]; vm_compute; reflexivity.
Qed.

Lemma demo_prepared_textures :
  ∀ tag, tag ∈ rendered_textures ->
    ∃ e, e ∈ demo_entries ∧ TEXTURE_INFO.tag e = tag.
Proof.
  assert (Forall (fun tag => Exists (fun e => TEXTURE_INFO.tag e = tag) demo_entries)
            rendered_textures) as Hall
    by (apply (bool_decide_unpack _); vm_compute; exact I).
  intros tag Hin. apply Exists_exists. revert tag Hin. by apply Forall_forall.
Qed.

Lemma RenderScene_textures_defined_witness :
  inserted (world demo_prepared) demo_entries
  ∧ m_pShaderManager (this (world demo_prepared)) = Some 1%positive
  ∧ ∃ sc' new,
      RenderScene silver demo_prepared = Done tt sc'
      ∧ trace (world sc') = trace (world demo_prepared) ++ new
      ∧ length (samplers new) = 9
      ∧ Forall (fun value => (0 <= value < 16)%Z) (samplers new).
Proof.
  assert (m_pShaderManager (this (world demo_prepared)) = Some 1%positive) as Hp
    by (vm_compute; reflexivity).
  split; [exact demo_prepared_inserted|]. split; [exact Hp|].
  exact (RenderScene_textures_defined silver demo_prepared demo_entries 1%positive
           demo_prepared_inserted Hp demo_prepared_textures).
Defined.


Lemma prepared_scene_renders_witness :
  all_load scene_blocks
  ∧ ∃ sc1 sc' new,
      PrepareScene demo_fresh = Done tt sc1
      ∧ RenderScene silver sc1 = Done tt sc'
      ∧ trace (world sc') = trace (world sc1) ++ new
      ∧ samplers new = [0; 1; 1; 2; 3; 6; 6; 4; 5]%Z.
Proof.
  split; [exact demo_all_load|].
  destruct (prepared_scene_renders 1%positive [] [] silver demo_all_load)
    as (sc1 & sc' & new & Hprepare & Hrender & _ & Htrace & Hsamplers).
  exists sc1, sc', new. split; [exact Hprepare|]. split; [exact Hrender|].
  split; [exact Htrace|exact Hsamplers].
Defined.

End Scene_more.
